(** * The answer-evaluation pipeline of [record-answer.tsx]

    A shallow embedding of the [RecordAnswer] component: the transcript
    aggregation run by its effect, the tiered [cleanJsonResponse] parser,
    [generateResult], and the three handlers [recordUserAnswer],
    [recordNewAnswer] and [saveUserAnswer].

    JavaScript strings are sequences of UTF-16 code units; a code unit is
    an [N].  Handlers read the values captured at render time and write
    state through the setters, so each handler is a function from the
    rendered snapshot to the next state together with the list of
    commands it issued, in order. *)

From Stdlib Require Import List NArith ZArith Bool Ascii String Lia.
Import ListNotations.

#[local] Set Warnings "-register-all".

Local Open Scope N_scope.
Local Open Scope list_scope.

(** ** JavaScript strings *)

Definition JsString := list N.

(** An ASCII literal as a JavaScript string. *)
Fixpoint js (s : string) : JsString :=
  match s with
  | EmptyString => []
  | String c rest => N_of_ascii c :: js rest
  end.

Definition quoteUnit : N := 34.
Definition apostropheUnit : N := 39.

(** Same as [js], with every apostrophe of the literal standing for a
    double quote, so that JSON texts can be written down. *)
Definition jsq (s : string) : JsString :=
  map (fun c => if c =? apostropheUnit then quoteUnit else c) (js s).

Fixpoint strEqb (a b : JsString) : bool :=
  match a, b with
  | [], [] => true
  | x :: a', y :: b' => (x =? y) && strEqb a' b'
  | _, _ => false
  end.

Fixpoint startsWith (p s : JsString) : bool :=
  match p, s with
  | [], _ => true
  | x :: p', y :: s' => (x =? y) && startsWith p' s'
  | _ :: _, [] => false
  end.

(** [String.prototype.includes]. *)
Fixpoint includes (needle hay : JsString) : bool :=
  startsWith needle hay ||
  match hay with
  | [] => false
  | _ :: hay' => includes needle hay'
  end.

(** White space and line terminators of ECMAScript, the set [trim] strips. *)
Definition isJsSpace (c : N) : bool :=
  (c =? 9) || (c =? 10) || (c =? 11) || (c =? 12) || (c =? 13) || (c =? 32)
  || (c =? 160) || (c =? 5760) || ((8192 <=? c) && (c <=? 8202))
  || (c =? 8232) || (c =? 8233) || (c =? 8239) || (c =? 8287)
  || (c =? 12288) || (c =? 65279).

Fixpoint trimStart (s : JsString) : JsString :=
  match s with
  | c :: rest => if isJsSpace c then trimStart rest else s
  | [] => []
  end.

Definition trimEnd (s : JsString) : JsString := rev (trimStart (rev s)).

Definition trim (s : JsString) : JsString := trimEnd (trimStart s).

(** [Array.prototype.join]: the result starts empty; before every element
    but the first the separator is appended, then the element. *)
Fixpoint join_loop (sep R : JsString) (k : nat) (xs : list JsString) : JsString :=
  match xs with
  | [] => R
  | x :: xs' =>
      let R1 := match k with O => R | S _ => R ++ sep end in
      join_loop sep (R1 ++ x) (S k) xs'
  end.

Definition join (sep : JsString) (xs : list JsString) : JsString :=
  join_loop sep [] 0 xs.

(** ** Speech results and their aggregation *)

(** An entry of [results]: a legacy plain string, or a [ResultType]
    object with its transcript and timestamp. *)
Inductive SpeechResult :=
| LegacyResult (text : JsString)
| Result (transcript : JsString) (timestamp : N).

(** The type guard of the filter: [typeof result !== "string"]. *)
Definition isResultType (r : SpeechResult) : bool :=
  match r with
  | LegacyResult _ => false
  | Result _ _ => true
  end.

Definition transcriptOf (r : SpeechResult) : JsString :=
  match r with
  | LegacyResult text => text
  | Result transcript _ => transcript
  end.

(** [results.filter(...).map((result) => result.transcript).join(" ")]. *)
Definition combineTranscripts (results : list SpeechResult) : JsString :=
  join (js " ") (map transcriptOf (filter isResultType results)).

(** The aggregation in the words of the specification: the texts of the
    final segments, in arrival order, with one space between neighbours. *)
Fixpoint finalTexts (segments : list SpeechResult) : list JsString :=
  match segments with
  | [] => []
  | LegacyResult _ :: rest => finalTexts rest
  | Result t _ :: rest => t :: finalTexts rest
  end.

Fixpoint spaceSeparated (texts : list JsString) : JsString :=
  match texts with
  | [] => []
  | [t] => t
  | t :: rest => t ++ js " " ++ spaceSeparated rest
  end.

Definition aggregate_spec (segments : list SpeechResult) : JsString :=
  spaceSeparated (finalTexts segments).

(** ** Values, errors and completions *)

(** A number as its JSON literal denotes it: sign, decimal mantissa and
    power of ten.  [-0], fractions and exponents all have [typeof]
    ["number"]; the model keeps the exact decimal and does not round. *)
Record Decimal := { negative : bool; mantissa : N; exponent : Z }.

Inductive Json :=
| JNull
| JBool (b : bool)
| JNumber (d : Decimal)
| JString (s : JsString)
| JArray (items : list Json)
| JObject (props : list (JsString * Json)).

(** A thrown [Error] object: its [name] and its [message]. *)
Record JsError := { name : JsString; message : JsString }.

Inductive Completion (A : Type) :=
| Normal (value : A)
| Throw (error : JsError).

Arguments Normal {A} value.
Arguments Throw {A} error.

Definition newError (msg : JsString) : JsError :=
  {| name := js "Error"; message := msg |}.

(** ** JSON.parse *)

Module JSON.

Inductive Parse (A : Type) :=
  | Parsed (value : A) (rest : JsString)
  | SyntaxErr
  | OutOfFuel.

Arguments Parsed {A} value rest.
Arguments SyntaxErr {A}.
Arguments OutOfFuel {A}.

Definition isWs (c : N) : bool :=
  (c =? 32) || (c =? 9) || (c =? 10) || (c =? 13).

Fixpoint skipWs (s : JsString) : JsString :=
  match s with
  | c :: rest => if isWs c then skipWs rest else s
  | [] => []
  end.

Definition isDigit (c : N) : bool := (48 <=? c) && (c <=? 57).

Definition hexValue (c : N) : option N :=
  if isDigit c then Some (c - 48)
  else if (97 <=? c) && (c <=? 102) then Some (c - 87)
  else if (65 <=? c) && (c <=? 70) then Some (c - 55)
  else None.

Definition hex4 (a b c d : N) : option N :=
  match hexValue a, hexValue b, hexValue c, hexValue d with
  | Some x, Some y, Some z, Some w => Some (((x * 16 + y) * 16 + z) * 16 + w)
  | _, _, _, _ => None
  end.

(** The single-character escapes after a backslash. *)
Definition simpleEscape (c : N) : option N :=
  if c =? 34 then Some 34          (* quote *)
  else if c =? 92 then Some 92     (* backslash *)
  else if c =? 47 then Some 47     (* slash *)
  else if c =? 98 then Some 8      (* b *)
  else if c =? 102 then Some 12    (* f *)
  else if c =? 110 then Some 10    (* n *)
  else if c =? 114 then Some 13    (* r *)
  else if c =? 116 then Some 9     (* t *)
  else None.

Definition consUnit (c : N) (p : Parse JsString) : Parse JsString :=
  match p with
  | Parsed str rest => Parsed (c :: str) rest
  | SyntaxErr => SyntaxErr
  | OutOfFuel => OutOfFuel
  end.

(** The characters of a string literal after its opening quote, up to and
    including the closing quote. *)
Fixpoint parseStringBody (s : JsString) : Parse JsString :=
  match s with
  | [] => SyntaxErr
  | c :: rest =>
      if c =? 34 then Parsed [] rest
      else if c =? 92 then
        match rest with
        | [] => SyntaxErr
        | e :: rest1 =>
            if e =? 117 then
              match rest1 with
              | a :: b :: c' :: d :: rest2 =>
                  match hex4 a b c' d with
                  | Some u => consUnit u (parseStringBody rest2)
                  | None => SyntaxErr
                  end
              | _ => SyntaxErr
              end
            else
              match simpleEscape e with
              | Some u => consUnit u (parseStringBody rest1)
              | None => SyntaxErr
              end
        end
      else if c <? 32 then SyntaxErr
      else consUnit c (parseStringBody rest)
  end.

(** A run of decimal digits: the value accumulated on [acc], how many
    digits were read, and what follows. *)
Fixpoint readDigits (acc : N) (count : nat) (s : JsString) : N * nat * JsString :=
  match s with
  | c :: rest =>
      if isDigit c then readDigits (acc * 10 + (c - 48)) (S count) rest
      else (acc, count, s)
  | [] => (acc, count, [])
  end.

Definition parseExponent (neg : bool) (m : N) (fracDigits : nat) (s : JsString)
  : Parse Json :=
  let plain := Parsed (JNumber {| negative := neg; mantissa := m;
                                  exponent := - Z.of_nat fracDigits |}) s in
  match s with
  | c :: rest =>
      if (c =? 101) || (c =? 69) then
        let '(expNeg, rest1) :=
          match rest with
          | sg :: rest' =>
              if sg =? 45 then (true, rest')
              else if sg =? 43 then (false, rest')
              else (false, rest)
          | [] => (false, rest)
          end in
        let '(e, count, rest2) := readDigits 0 0 rest1 in
        match count with
        | O => SyntaxErr
        | S _ =>
            let ez := if expNeg then (- Z.of_N e)%Z else Z.of_N e in
            Parsed (JNumber {| negative := neg; mantissa := m;
                               exponent := ez - Z.of_nat fracDigits |}) rest2
        end
      else plain
  | [] => plain
  end.

Definition parseFraction (neg : bool) (int : N) (s : JsString) : Parse Json :=
  match s with
  | c :: rest =>
      if c =? 46 then
        let '(m, count, rest1) := readDigits int 0 rest in
        match count with
        | O => SyntaxErr
        | S _ => parseExponent neg m count rest1
        end
      else parseExponent neg int 0 s
  | [] => parseExponent neg int 0 s
  end.

Definition parseNumber (s : JsString) : Parse Json :=
  let '(neg, s1) :=
    match s with
    | c :: rest => if c =? 45 then (true, rest) else (false, s)
    | [] => (false, s)
    end in
  match s1 with
  | c :: rest =>
      if c =? 48 then parseFraction neg 0 rest
      else if isDigit c then
        let '(int, _, rest1) := readDigits 0 0 s1 in
        parseFraction neg int rest1
      else SyntaxErr
  | [] => SyntaxErr
  end.

(** [CreateDataProperty] on the object under construction: a repeated key
    overwrites the value it had. *)
Fixpoint setProp (k : JsString) (v : Json) (props : list (JsString * Json))
  : list (JsString * Json) :=
  match props with
  | [] => [(k, v)]
  | (k', v') :: rest =>
      if strEqb k k' then (k, v) :: rest else (k', v') :: setProp k v rest
  end.

Definition expect (c : N) (s : JsString) : option JsString :=
  match s with
  | x :: rest => if x =? c then Some rest else None
  | [] => None
  end.

Definition asString (p : Parse JsString) : Parse Json :=
  match p with
  | Parsed str rest => Parsed (JString str) rest
  | SyntaxErr => SyntaxErr
  | OutOfFuel => OutOfFuel
  end.

Fixpoint parseValue (fuel : nat) (s : JsString) : Parse Json :=
  match fuel with
  | O => OutOfFuel
  | S f =>
      match s with
      | [] => SyntaxErr
      | c :: rest =>
          if c =? 123 then
            match expect 125 (skipWs rest) with
            | Some rest1 => Parsed (JObject []) rest1
            | None => parseMembers f (skipWs rest) []
            end
          else if c =? 91 then
            match expect 93 (skipWs rest) with
            | Some rest1 => Parsed (JArray []) rest1
            | None => parseElements f (skipWs rest) []
            end
          else if c =? 34 then asString (parseStringBody rest)
          else if startsWith (js "true") s then Parsed (JBool true) (skipn 4 s)
          else if startsWith (js "false") s then Parsed (JBool false) (skipn 5 s)
          else if startsWith (js "null") s then Parsed JNull (skipn 4 s)
          else if (c =? 45) || isDigit c then parseNumber s
          else SyntaxErr
      end
  end

with parseElements (fuel : nat) (s : JsString) (acc : list Json) : Parse Json :=
  match fuel with
  | O => OutOfFuel
  | S f =>
      match parseValue f s with
      | Parsed v rest =>
          match expect 44 (skipWs rest) with
          | Some rest1 => parseElements f (skipWs rest1) (acc ++ [v])
          | None =>
              match expect 93 (skipWs rest) with
              | Some rest1 => Parsed (JArray (acc ++ [v])) rest1
              | None => SyntaxErr
              end
          end
      | SyntaxErr => SyntaxErr
      | OutOfFuel => OutOfFuel
      end
  end

with parseMembers (fuel : nat) (s : JsString) (acc : list (JsString * Json))
  : Parse Json :=
  match fuel with
  | O => OutOfFuel
  | S f =>
      match expect 34 s with
      | None => SyntaxErr
      | Some body =>
          match parseStringBody body with
          | Parsed k rest =>
              match expect 58 (skipWs rest) with
              | None => SyntaxErr
              | Some rest1 =>
                  match parseValue f (skipWs rest1) with
                  | Parsed v rest2 =>
                      match expect 44 (skipWs rest2) with
                      | Some rest3 =>
                          parseMembers f (skipWs rest3) (setProp k v acc)
                      | None =>
                          match expect 125 (skipWs rest2) with
                          | Some rest3 => Parsed (JObject (setProp k v acc)) rest3
                          | None => SyntaxErr
                          end
                      end
                  | SyntaxErr => SyntaxErr
                  | OutOfFuel => OutOfFuel
                  end
              end
          | SyntaxErr => SyntaxErr
          | OutOfFuel => OutOfFuel
          end
      end
  end.

(** Enough fuel for every text of that length (see [parseText_total]). *)
Definition fuelFor (text : JsString) : nat := 2 * List.length text + 1.

(** The whole text must be one value between optional white space. *)
Definition parseText (text : JsString) : Parse Json :=
  match parseValue (fuelFor text) (skipWs text) with
  | Parsed v rest =>
      match skipWs rest with
      | [] => Parsed v []
      | _ :: _ => SyntaxErr
      end
  | SyntaxErr => SyntaxErr
  | OutOfFuel => OutOfFuel
  end.

(** A parse result is fine for input [s] when it is not [OutOfFuel] and
    what it leaves is strictly shorter than [s]. *)
Definition good {A : Type} (p : Parse A) (s : JsString) : Prop :=
  match p with
  | Parsed _ rest => (List.length rest < List.length s)%nat
  | SyntaxErr => True
  | OutOfFuel => False
  end.

Section Engine.

(** The message of the [SyntaxError] the engine throws for a text it
    rejects is implementation-defined. *)
Variable syntaxErrorMessage : JsString -> JsString.

Definition parse (text : JsString) : Completion Json :=
  match parseText text with
  | Parsed v _ => Normal v
  | _ => Throw {| name := js "SyntaxError";
                  message := syntaxErrorMessage text |}
  end.

End Engine.

End JSON.

(** ** Property access and [typeof] *)

Inductive JsType := TUndefined | TObject | TBoolean | TNumber | TString.

Definition JsType_eqb (a b : JsType) : bool :=
  match a, b with
  | TUndefined, TUndefined | TObject, TObject | TBoolean, TBoolean
  | TNumber, TNumber | TString, TString => true
  | _, _ => false
  end.

Fixpoint lookup (k : JsString) (props : list (JsString * Json)) : option Json :=
  match props with
  | [] => None
  | (k', v) :: rest => if strEqb k k' then Some v else lookup k rest
  end.

(** [value?.key] for a parsed value; [None] is [undefined].  [null]
    short-circuits, and primitives and arrays inherit no property named
    [ratings] or [feedback]. *)
Definition getProp (value : Json) (k : JsString) : option Json :=
  match value with
  | JObject props => lookup k props
  | _ => None
  end.

Definition typeof (v : option Json) : JsType :=
  match v with
  | None => TUndefined
  | Some JNull => TObject
  | Some (JBool _) => TBoolean
  | Some (JNumber _) => TNumber
  | Some (JString _) => TString
  | Some (JArray _) => TObject
  | Some (JObject _) => TObject
  end.

(** ** Commands issued by the component, in order *)

Module Doc.
(** The document handed to [addDoc]; [createdAt] is assigned by the
    server. *)
Record t := {
  mockIdRef : JsString;
  question : JsString;
  correct_ans : JsString;
  user_ans : JsString;
  feedback : option Json;
  rating : option Json;
  userId : JsString;
  createdAt : N
}.
End Doc.

Inductive Command :=
| StartSpeechToText
| StopSpeechToText
| ToastInfo (title description : JsString)
| ToastError (title description : JsString)
| ToastSuccess (title description : JsString)
| ConsoleLog (label text : JsString)
| ConsoleErrorText (label text : JsString)
| ConsoleErrorObj (label : JsString) (error : JsError)
| SendMessage (prompt : JsString)
| GetDocs (userId question mockIdRef : JsString)
| AddDoc (doc : Doc.t)
| SetTimeout (callback : list Command) (ms : N).

(** ** cleanJsonResponse *)

Definition backtick : N := 96.

(** [responseText.replace(/```json|```|`/g, '')]: scanning left to right,
    at each position the first alternative that matches is removed.
    [skip] counts the units of the current match still to drop. *)
Fixpoint replaceFences (skip : nat) (s : JsString) : JsString :=
  match s with
  | [] => []
  | c :: rest =>
      match skip with
      | S n => replaceFences n rest
      | O =>
          if startsWith (js "```json") s then replaceFences 6 rest
          else if startsWith (js "```") s then replaceFences 2 rest
          else if c =? backtick then replaceFences 0 rest
          else c :: replaceFences 0 rest
      end
  end.

Definition openBrace : N := 123.
Definition closeBrace : N := 125.

(** After the opening brace: [[\s\S]*?\}] takes as few units as possible,
    so at every position the closing brace is tried first. *)
Fixpoint lazyToClose (s : JsString) : option JsString :=
  match s with
  | [] => None
  | c :: rest =>
      if c =? closeBrace then Some [c]
      else option_map (cons c) (lazyToClose rest)
  end.

(** [responseText.match(/\{[\s\S]*?\}/)]: start positions are tried from
    the left; the result is the matched text, [jsonMatch[0]]. *)
Fixpoint matchObject (s : JsString) : option JsString :=
  match s with
  | [] => None
  | c :: rest =>
      match (if c =? openBrace then option_map (cons c) (lazyToClose rest)
             else None) with
      | Some m => Some m
      | None => matchObject rest
      end
  end.

Section Parser.

Variable syntaxErrorMessage : JsString -> JsString.

Definition JSON_parse := JSON.parse syntaxErrorMessage.

(** The innermost [try] block: the extraction tier. *)
Definition extractionParse (responseText : JsString) : Completion Json :=
  match matchObject responseText with
  | Some jsonMatch => JSON_parse jsonMatch
  | None => Throw (newError (js "Could not extract valid JSON"))
  end.

Definition cleanJsonResponse (responseText : JsString)
  : Completion Json * list Command :=
  match JSON_parse responseText with
  | Normal v => (Normal v, [])
  | Throw firstError =>
      let cleanText := trim (replaceFences 0 responseText) in
      match JSON_parse cleanText with
      | Normal v => (Normal v, [])
      | Throw secondError =>
          match extractionParse responseText with
          | Normal v => (Normal v, [])
          | Throw finalError =>
              (Throw (newError (js "Invalid JSON format: "
                                  ++ message finalError)),
               [ConsoleErrorText (js "JSON parsing failed:") responseText])
          end
      end
  end.

End Parser.

(** ** Component state *)

Record State := {
  userAnswer : JsString;
  isAiGenerating : bool;
  aiResult : option Json;        (* [None] is [null] *)
  open : bool;
  loading : bool
}.

Definition initialState : State :=
  {| userAnswer := []; isAiGenerating := false; aiResult := None;
     open := false; loading := false |}.

Definition setUserAnswer (v : JsString) (st : State) : State :=
  {| userAnswer := v; isAiGenerating := isAiGenerating st;
     aiResult := aiResult st; open := open st; loading := loading st |}.

Definition setIsAiGenerating (v : bool) (st : State) : State :=
  {| userAnswer := userAnswer st; isAiGenerating := v;
     aiResult := aiResult st; open := open st; loading := loading st |}.

Definition setAiResult (v : option Json) (st : State) : State :=
  {| userAnswer := userAnswer st; isAiGenerating := isAiGenerating st;
     aiResult := v; open := open st; loading := loading st |}.

Definition setOpen (v : bool) (st : State) : State :=
  {| userAnswer := userAnswer st; isAiGenerating := isAiGenerating st;
     aiResult := aiResult st; open := v; loading := loading st |}.

Definition setLoading (v : bool) (st : State) : State :=
  {| userAnswer := userAnswer st; isAiGenerating := isAiGenerating st;
     aiResult := aiResult st; open := open st; loading := v |}.

(** What the component reads besides its own state: the [question] prop,
    [userId] of the signed-in user and the [interviewId] route parameter. *)
Module Question.
Record t := { question : JsString; answer : JsString }.
End Question.

Record Env := {
  question : Question.t;
  userId : JsString;
  interviewId : JsString
}.

(** The effect on [results]. *)
Definition resultsEffect (results : list SpeechResult) (st : State) : State :=
  match results with
  | [] => st
  | _ :: _ => setUserAnswer (combineTranscripts results) st
  end.

(** ** generateResult *)

Definition nl : JsString := [10].

Definition promptHead (qst : JsString) : JsString :=
  nl ++ js "      Question: " ++ [quoteUnit] ++ qst ++ [quoteUnit] ++
  nl ++ js "      User Answer: " ++ [quoteUnit].

Definition promptTail (qstAns : JsString) : JsString :=
  [quoteUnit] ++
  nl ++ js "      Correct Answer: " ++ [quoteUnit] ++ qstAns ++ [quoteUnit] ++
  nl ++ js "      Please compare the user's answer to the correct answer, and provide a rating (from 1 to 10) based on answer quality, and offer feedback for improvement." ++
  nl ++ jsq "      Return the result in JSON format with ONLY the fields 'ratings' (number) and 'feedback' (string)." ++
  nl ++ js "      The response should be valid JSON without code block formatting." ++
  nl ++ js "    ".

(** The template literal of [generateResult]. *)
Definition prompt (qst qstAns userAns : JsString) : JsString :=
  promptHead qst ++ userAns ++ promptTail qstAns.

Definition invalidStructure : JsError :=
  newError (js "Invalid response structure").

Section Component.

Variable syntaxErrorMessage : JsString -> JsString.

(** The body of the [try] block once the service has answered with
    [raw]: log, parse, validate. *)
Definition parseAndValidate (raw : JsString) : Completion Json * list Command :=
  let '(parsed, cmds) := cleanJsonResponse syntaxErrorMessage raw in
  let logged := ConsoleLog (js "Raw AI response:") raw :: cmds in
  match parsed with
  | Throw e => (Throw e, logged)
  | Normal parsedResult =>
      if negb (JsType_eqb (typeof (getProp parsedResult (js "ratings"))) TNumber)
         || negb (JsType_eqb (typeof (getProp parsedResult (js "feedback"))) TString)
      then (Throw invalidStructure, logged)
      else (Normal parsedResult, logged)
  end.

(** [reply] is what [chatSession.sendMessage(prompt)] followed by
    [response.text()] gives: the raw text, or the error thrown. *)
Definition generateResult (qst qstAns userAns : JsString)
           (reply : Completion JsString) (st : State)
  : Completion Json * State * list Command :=
  let st1 := setIsAiGenerating true st in
  let sent := SendMessage (prompt qst qstAns userAns) in
  let '(outcome, cmds) :=
    match reply with
    | Throw e => (Throw e, [])
    | Normal raw => parseAndValidate raw
    end in
  let caught :=
    match outcome with
    | Normal _ => []
    | Throw error =>
        [ConsoleErrorObj (js "AI generation error:") error;
         ToastError (js "Error")
                    (js "An error occurred while generating feedback.")]
    end in
  (outcome, setIsAiGenerating false st1, sent :: cmds ++ caught).

(** ** recordUserAnswer: the record button *)
Definition recordUserAnswer (env : Env) (isRecording : bool)
           (reply : Completion JsString) (st : State)
  : State * list Command :=
  if isRecording then
    let '(outcome, st1, cmds) :=
      generateResult (Question.question (question env))
                     (Question.answer (question env))
                     (userAnswer st) reply st in
    match outcome with
    | Normal r => (setAiResult (Some r) st1, StopSpeechToText :: cmds)
    | Throw error =>
        (st1,
         StopSpeechToText :: cmds ++
         [ConsoleErrorObj (js "Error generating AI result:") error;
          ToastError (js "Error")
                     (js "Failed to generate feedback. Please try again.")])
    end
  else
    (st, [StartSpeechToText;
          ToastInfo (js "Recording started")
                    (js "Speak clearly into your microphone")]).

End Component.

(** ** recordNewAnswer: the "Record New Answer" button *)
Definition recordNewAnswer (isRecording : bool) (st : State)
  : State * list Command :=
  (setAiResult None (setUserAnswer [] st),
   (if isRecording then [StopSpeechToText] else []) ++
   [SetTimeout [StartSpeechToText;
                ToastInfo (js "Recording new answer")
                          (js "Previous answer has been cleared")] 300]).

(** ** saveUserAnswer and the document store *)

(** How the store answers during one save: whether [getDocs] or [addDoc]
    rejects, and the timestamp the server assigns. *)
Record StoreRun := {
  queryError : option JsError;
  insertError : option JsError;
  serverTimestamp : N
}.

(** The three [where] clauses of the query. *)
Definition matchesKey (uid qtext iid : JsString) (d : Doc.t) : bool :=
  strEqb (Doc.userId d) uid
  && strEqb (Doc.question d) qtext
  && strEqb (Doc.mockIdRef d) iid.

Definition keyOf (env : Env) (d : Doc.t) : bool :=
  matchesKey (userId env) (Question.question (question env)) (interviewId env) d.

Definition noFeedbackToast : Command :=
  ToastError (js "Error") (js "No feedback available to save").

Definition alreadyAnsweredToast : Command :=
  ToastInfo (js "Already Answered")
            (js "You have already answered this question").

Definition savedToast : Command :=
  ToastSuccess (js "Saved") (js "Your answer has been saved successfully").

Definition saveFailed (error : JsError) : list Command :=
  [ConsoleErrorObj (js "Error saving answer:") error;
   ToastError (js "Error")
              (js "An error occurred while saving your answer.")].

(** The [finally] block. *)
Definition saveFinally (st : State) : State :=
  setOpen false (setLoading false st).

(** The object literal handed to [addDoc], with the timestamp the server
    puts in place of [serverTimestamp()]. *)
Definition answerDoc (env : Env) (st : State) (result : Json) (t : N) : Doc.t :=
  {| Doc.mockIdRef := interviewId env;
     Doc.question := Question.question (question env);
     Doc.correct_ans := Question.answer (question env);
     Doc.user_ans := userAnswer st;
     Doc.feedback := getProp result (js "feedback");
     Doc.rating := getProp result (js "ratings");
     Doc.userId := userId env;
     Doc.createdAt := t |}.

Definition saveUserAnswer (env : Env) (isRecording : bool) (run : StoreRun)
           (st : State) (store : list Doc.t)
  : State * list Doc.t * list Command :=
  match aiResult st with
  | None => (st, store, [noFeedbackToast])
  | Some result =>
      let st1 := setLoading true st in
      let currentQuestion := Question.question (question env) in
      let userAnswerQuery :=
        GetDocs (userId env) currentQuestion (interviewId env) in
      match queryError run with
      | Some error =>
          (saveFinally st1, store, userAnswerQuery :: saveFailed error)
      | None =>
          match filter (keyOf env) store with
          | _ :: _ =>
              (saveFinally st1, store, [userAnswerQuery; alreadyAnsweredToast])
          | [] =>
              let doc := answerDoc env st result (serverTimestamp run) in
              match insertError run with
              | Some error =>
                  (saveFinally st1, store,
                   userAnswerQuery :: AddDoc doc :: saveFailed error)
              | None =>
                  (saveFinally (setAiResult None (setUserAnswer [] st1)),
                   store ++ [doc],
                   [userAnswerQuery; AddDoc doc; savedToast]
                   ++ (if isRecording then [StopSpeechToText] else []))
              end
          end
      end
  end.

(** ** The component in its environment *)

(** What [useSpeechToText] hands to the component at each render. *)
Record Hook := { isRecording : bool; results : list SpeechResult }.

Record World := {
  component : State;
  hook : Hook;
  store : list Doc.t;
  timers : list (list Command);
  log : list Command
}.

Definition initialWorld : World :=
  {| component := initialState;
     hook := {| isRecording := false; results := [] |};
     store := []; timers := []; log := [] |}.

Inductive Event :=
| ClickRecord (reply : Completion JsString)
| ClickRecordNew
| ConfirmSave (run : StoreRun)
| TimerFires
| SpeechResults (rs : list SpeechResult).

(** The hook's flag follows the start and stop requests; a timeout parks
    its callback. *)
Definition perform (acc : Hook * list (list Command)) (c : Command)
  : Hook * list (list Command) :=
  let '(h, ts) := acc in
  match c with
  | StartSpeechToText => ({| isRecording := true; results := results h |}, ts)
  | StopSpeechToText => ({| isRecording := false; results := results h |}, ts)
  | SetTimeout callback _ => (h, ts ++ [callback])
  | _ => (h, ts)
  end.

Definition commit (w : World) (st : State) (docs : list Doc.t)
           (pending : list (list Command)) (cmds : list Command) : World :=
  let '(h, ts) := fold_left perform cmds (hook w, pending) in
  {| component := st; hook := h; store := docs; timers := ts;
     log := log w ++ cmds |}.

Section Run.

Variable syntaxErrorMessage : JsString -> JsString.
Variable env : Env.

Definition step (w : World) (e : Event) : World :=
  match e with
  | ClickRecord reply =>
      let '(st, cmds) :=
        recordUserAnswer syntaxErrorMessage env (isRecording (hook w))
                         reply (component w) in
      commit w st (store w) (timers w) cmds
  | ClickRecordNew =>
      let '(st, cmds) := recordNewAnswer (isRecording (hook w)) (component w) in
      commit w st (store w) (timers w) cmds
  | ConfirmSave run =>
      let '(st, docs, cmds) :=
        saveUserAnswer env (isRecording (hook w)) run (component w) (store w) in
      commit w st docs (timers w) cmds
  | TimerFires =>
      match timers w with
      | [] => w
      | callback :: rest => commit w (component w) (store w) rest callback
      end
  | SpeechResults rs =>
      {| component := resultsEffect rs (component w);
         hook := {| isRecording := isRecording (hook w); results := rs |};
         store := store w; timers := timers w; log := log w |}
  end.

Definition runEvents (trace : list Event) (w : World) : World :=
  fold_left step trace w.

End Run.

(** The prompts sent so far, oldest first. *)
Fixpoint promptsSent (cmds : list Command) : list JsString :=
  match cmds with
  | [] => []
  | SendMessage p :: rest => p :: promptsSent rest
  | _ :: rest => promptsSent rest
  end.

(** ** Values used in the examples *)

(** A message text for rejected inputs; any other choice would do. *)
Definition sampleSyntaxMessage (text : JsString) : JsString :=
  js "Unexpected token in JSON".

Definition sampleEnv : Env :=
  {| question := {| Question.question := js "What is a closure?";
                    Question.answer := js "A function with its scope." |};
     userId := js "user_1";
     interviewId := js "interview_1" |}.

(** The rating as an integer, when the decimal denotes one. *)
Definition decimalAsInteger (d : Decimal) : option Z :=
  let m := (if negative d then - Z.of_N (mantissa d) else Z.of_N (mantissa d))%Z in
  if (0 <=? exponent d)%Z then Some (m * 10 ^ exponent d)%Z
  else
    let p := (10 ^ (- exponent d))%Z in
    if (m mod p =? 0)%Z then Some (m / p)%Z else None.

(** "An integer in [1,10]", as the data model of the specification puts it. *)
Definition isRatingInRange (v : option Json) : bool :=
  match v with
  | Some (JNumber d) =>
      match decimalAsInteger d with
      | Some n => ((1 <=? n) && (n <=? 10))%Z
      | None => false
      end
  | _ => false
  end.

(** No unit of [s] is [c]. *)
Definition lacks (c : N) (s : JsString) : bool :=
  forallb (fun x => negb (x =? c)) s.

(** Whether an error object mentions [text] in one of its fields. *)
Definition carriesText (e : JsError) (text : JsString) : bool :=
  includes text (message e) || includes text (name e).

Definition number (n : N) : Json :=
  JNumber {| negative := false; mantissa := n; exponent := 0 |}.

Definition extractionExample : JsString :=
  jsq "Here is the result: {'ratings':3,'feedback':'Needs work'} Thanks!".

Definition needsWork : Json :=
  JObject [(js "ratings", number 3);
           (js "feedback", JString (js "Needs work"))].

Definition notJson : JsString := js "not json at all".

(** What the last tier throws when the pattern matches nowhere, and what
    [cleanJsonResponse] throws for it. *)
Definition extractFailure : JsError :=
  newError (js "Invalid JSON format: Could not extract valid JSON").

Definition wrongTypeReply : JsString := jsq "{'ratings':'high','feedback':'ok'}".

Definition elevenReply : JsString := jsq "{'ratings':11,'feedback':'Flawless'}".

Definition eleven : Json :=
  JObject [(js "ratings", number 11); (js "feedback", JString (js "Flawless"))].

Definition fractionReply : JsString := jsq "{'ratings':7.5,'feedback':'Solid'}".

Definition sevenAndHalf : Json :=
  JObject [(js "ratings",
            JNumber {| negative := false; mantissa := 75; exponent := -1 |});
           (js "feedback", JString (js "Solid"))].


(** The three parts of what [saveUserAnswer] returns. *)
Definition stateOf (r : State * list Doc.t * list Command) : State := fst (fst r).
Definition docsOf (r : State * list Doc.t * list Command) : list Doc.t := snd (fst r).
Definition commandsOf (r : State * list Doc.t * list Command) : list Command := snd r.

(** A store that answers without error, stamping with [t]. *)
Definition cleanRun (t : N) : StoreRun :=
  {| queryError := None; insertError := None; serverTimestamp := t |}.

Definition failingQuery : StoreRun :=
  {| queryError := Some (newError (js "unavailable"));
     insertError := None; serverTimestamp := 0 |}.

Definition failingInsert : StoreRun :=
  {| queryError := None;
     insertError := Some (newError (js "permission-denied"));
     serverTimestamp := 0 |}.

(** A state holding an answer and its evaluation, the save dialog open. *)
Definition answeredState : State :=
  {| userAnswer := js "A closure captures variables.";
     isAiGenerating := false;
     aiResult := Some needsWork;
     open := true;
     loading := false |}.

(** A reply the validation accepts. *)
Definition goodReply : Completion JsString :=
  Normal (jsq "{'ratings':7,'feedback':'Good'}").

Definition hello : list SpeechResult := [Result (js "hello") 1].

(** A recording session: start, one result delivered, stop. *)
Definition firstSession : list Event :=
  [ClickRecord goodReply; SpeechResults hello; ClickRecord goodReply].

(** A later session in which the recognizer delivers nothing. *)
Definition silentSession : list Event :=
  [ClickRecord goodReply; ClickRecord goodReply].

(** The [results] arrays delivered in the course of some events. *)
Fixpoint deliveredDuring (events : list Event) : list (list SpeechResult) :=
  match events with
  | [] => []
  | SpeechResults rs :: rest => rs :: deliveredDuring rest
  | _ :: rest => deliveredDuring rest
  end.

(** Commands that neither start nor stop the recognizer nor set a timer. *)
Definition quiet (c : Command) : bool :=
  match c with
  | StartSpeechToText | StopSpeechToText | SetTimeout _ _ => false
  | _ => true
  end.

Definition recordingStarted : list Command :=
  [StartSpeechToText;
   ToastInfo (js "Recording started") (js "Speak clearly into your microphone")].

Definition restartCallback : list Command :=
  [StartSpeechToText;
   ToastInfo (js "Recording new answer") (js "Previous answer has been cleared")].

(** ** Notions used to state further properties *)

(** Whether the first, or the last, unit of a text is white space. *)
Definition headIsSpace (s : JsString) : bool :=
  match s with
  | c :: _ => isJsSpace c
  | [] => false
  end.

Definition lastIsSpace (s : JsString) : bool := headIsSpace (rev s).

(** The shape [generateResult] validates: a numeric [ratings] and a
    textual [feedback]. *)
Definition hasResponseShape (v : Json) : bool :=
  JsType_eqb (typeof (getProp v (js "ratings"))) TNumber
  && JsType_eqb (typeof (getProp v (js "feedback"))) TString.

(** What the [catch] block of [generateResult] issues. *)
Definition generationFailed (error : JsError) : list Command :=
  [ConsoleErrorObj (js "AI generation error:") error;
   ToastError (js "Error") (js "An error occurred while generating feedback.")].

(** What the [catch] block of [recordUserAnswer] issues. *)
Definition feedbackFailed (error : JsError) : list Command :=
  [ConsoleErrorObj (js "Error generating AI result:") error;
   ToastError (js "Error") (js "Failed to generate feedback. Please try again.")].

Definition isErrorToast (c : Command) : bool :=
  match c with
  | ToastError _ _ => true
  | _ => false
  end.

(** A stored document written under the key of [env] from a validated
    evaluation. *)
Definition docWellFormed (env : Env) (d : Doc.t) : bool :=
  keyOf env d
  && JsType_eqb (typeof (Doc.rating d)) TNumber
  && JsType_eqb (typeof (Doc.feedback d)) TString.

Definition sameKey (a b : Env) : bool :=
  strEqb (userId a) (userId b)
  && strEqb (Question.question (question a)) (Question.question (question b))
  && strEqb (interviewId a) (interviewId b).

(** Whether a command reaches the document store. *)
Definition isStoreCall (c : Command) : bool :=
  match c with
  | GetDocs _ _ _ | AddDoc _ => true
  | _ => false
  end.

(** A reply with a field beyond the two that were asked for. *)
Definition extraFieldReply : JsString :=
  jsq "{'ratings':8,'feedback':'Clear','confidence':'high'}".

Definition extraFieldRecord : Json :=
  JObject [(js "ratings", number 8);
           (js "feedback", JString (js "Clear"));
           (js "confidence", JString (js "high"))].

(** The log entry [generateResult] makes of the raw reply. *)
Definition rawLogged (raw : JsString) : Command :=
  ConsoleLog (js "Raw AI response:") raw.

Definition parsingFailed (raw : JsString) : Command :=
  ConsoleErrorText (js "JSON parsing failed:") raw.

Definition invalidJson (m : JsString) : JsError :=
  newError (js "Invalid JSON format: " ++ m).

(** What holds of every world the component can reach: the AIResponse it
    holds, if any, has the validated shape; the stored documents are
    well formed and at most one; the only timer callbacks pending are
    restarts. *)
Definition wellFormedWorld (env : Env) (w : World) : Prop :=
  match aiResult (component w) with
  | Some r => hasResponseShape r = true
  | None => True
  end
  /\ forallb (docWellFormed env) (store w) = true
  /\ (List.length (store w) <= 1)%nat
  /\ Forall (fun callback => callback = restartCallback) (timers w).

(** A response wrapped in a code fence labelled json, with white space
    [before] and [after] the fenced text. *)
Definition fenced (before text after : JsString) : JsString :=
  js "```json" ++ before ++ text ++ after ++ js "```".



(** * Properties *)

(** ** JSON.parse never runs out of fuel *)

Module JSONFacts.
Import JSON.

Lemma skipWs_length (s : JsString) :
  (List.length (skipWs s) <= List.length s)%nat.
Proof.
  induction s as [|c rest IH]; simpl; [lia|].
  destruct (isWs c); simpl; lia.
Qed.

Lemma expect_length (c : N) (s rest : JsString) :
  expect c s = Some rest -> List.length s = S (List.length rest).
Proof.
  destruct s as [|x s']; simpl; [discriminate|].
  destruct (x =? c); [|discriminate].
  intros H; injection H as <-; reflexivity.
Qed.

Lemma good_consUnit (u : N) (p : Parse JsString) (s s' : JsString) :
  good p s' -> (List.length s' <= List.length s)%nat -> good (consUnit u p) s.
Proof.
  destruct p; simpl; auto; lia.
Qed.

Lemma parseStringBody_good_bounded (n : nat) :
  forall s, (List.length s <= n)%nat -> good (parseStringBody s) s.
Proof.
  induction n as [|n IH]; intros s Hn.
  - destruct s; simpl in *; [exact I | lia].
  - destruct s as [|c rest]; [exact I|].
    simpl in Hn. cbn [parseStringBody].
    destruct (c =? 34); [simpl; lia|].
    destruct (c =? 92).
    + destruct rest as [|e rest1]; [exact I|].
      destruct (e =? 117).
      * destruct rest1 as [|a [|b [|c' [|d rest2]]]]; try exact I.
        destruct (hex4 a b c' d); [|exact I].
        apply good_consUnit with (s' := rest2); [apply IH|]; simpl in *; lia.
      * destruct (simpleEscape e); [|exact I].
        apply good_consUnit with (s' := rest1); [apply IH|]; simpl in *; lia.
    + destruct (c <? 32); [exact I|].
      apply good_consUnit with (s' := rest); [apply IH|]; simpl in *; lia.
Qed.

Lemma parseStringBody_good (s : JsString) : good (parseStringBody s) s.
Proof. apply parseStringBody_good_bounded with (n := List.length s); lia. Qed.

Lemma readDigits_length (s : JsString) :
  forall acc count v count' rest,
    readDigits acc count s = (v, count', rest) ->
    (List.length rest + count' = List.length s + count)%nat
    /\ (count <= count')%nat.
Proof.
  induction s as [|c s' IH]; intros acc count v count' rest; simpl.
  - intros H; injection H as <- <- <-; simpl; lia.
  - destruct (isDigit c).
    + intros H. apply IH in H. lia.
    + intros H; injection H as <- <- <-; simpl; lia.
Qed.

Lemma parseExponent_good (neg : bool) (m : N) (k : nat) (s s0 : JsString) :
  (List.length s < List.length s0)%nat -> good (parseExponent neg m k s) s0.
Proof.
  intros Hlt. unfold parseExponent.
  destruct s as [|c rest]; [exact Hlt|].
  destruct ((c =? 101) || (c =? 69)); [|exact Hlt].
  set (signed := match rest with
                 | [] => (false, rest)
                 | sg :: rest' =>
                     if sg =? 45 then (true, rest')
                     else if sg =? 43 then (false, rest') else (false, rest)
                 end).
  assert (Hs : (List.length (snd signed) <= List.length rest)%nat).
  { subst signed. destruct rest as [|sg rest']; simpl; [lia|].
    destruct (sg =? 45); simpl; [lia|]. destruct (sg =? 43); simpl; lia. }
  destruct signed as [expNeg rest1]. simpl in Hs.
  destruct (readDigits 0 0 rest1) as [[e count] rest2] eqn:Hd.
  apply readDigits_length in Hd.
  destruct count; [exact I|]. simpl in *. lia.
Qed.

Lemma parseFraction_good (neg : bool) (int : N) (s s0 : JsString) :
  (List.length s < List.length s0)%nat -> good (parseFraction neg int s) s0.
Proof.
  intros Hlt. unfold parseFraction.
  destruct s as [|c rest]; [apply parseExponent_good; exact Hlt|].
  destruct (c =? 46); [|apply parseExponent_good; exact Hlt].
  destruct (readDigits int 0 rest) as [[m count] rest1] eqn:Hd.
  apply readDigits_length in Hd.
  destruct count; [exact I|].
  apply parseExponent_good. simpl in *. lia.
Qed.

Lemma parseNumber_good (s : JsString) : good (parseNumber s) s.
Proof.
  unfold parseNumber.
  set (signed := match s with
                 | [] => (false, s)
                 | c :: rest => if c =? 45 then (true, rest) else (false, s)
                 end).
  assert (Hs : (List.length (snd signed) <= List.length s)%nat).
  { subst signed. destruct s as [|c rest]; simpl; [lia|].
    destruct (c =? 45); simpl; lia. }
  destruct signed as [neg s1]. simpl in Hs.
  destruct s1 as [|c rest]; [exact I|].
  destruct (c =? 48).
  - apply parseFraction_good. simpl in Hs. lia.
  - destruct (isDigit c) eqn:Hc; [|exact I].
    destruct (readDigits 0 0 (c :: rest)) as [[int k] rest1] eqn:Hd.
    simpl in Hd. rewrite Hc in Hd.
    apply readDigits_length in Hd.
    apply parseFraction_good. simpl in *. lia.
Qed.

Lemma good_asString (p : Parse JsString) (s s' : JsString) :
  good p s' -> (List.length s' <= List.length s)%nat -> good (asString p) s.
Proof.
  destruct p; simpl; auto; lia.
Qed.

Lemma good_weaken {A : Type} (p : Parse A) (s s' : JsString) :
  good p s' -> (List.length s' <= List.length s)%nat -> good p s.
Proof.
  destruct p; simpl; auto; lia.
Qed.

Lemma skipn_shorter (n : nat) (s : JsString) :
  (0 < n)%nat -> s <> [] ->
  (List.length (skipn n s) < List.length s)%nat.
Proof.
  intros Hn Hs. rewrite length_skipn.
  destruct s; [congruence|]. cbn [List.length]. lia.
Qed.

(** With fuel above twice the length of the input, the three mutually
    recursive parsers end in a value or a syntax error. *)
Lemma parsers_good (fuel : nat) :
  (forall s, (2 * List.length s + 1 <= fuel)%nat -> good (parseValue fuel s) s)
  /\ (forall s acc, (2 * List.length s + 2 <= fuel)%nat ->
                    good (parseElements fuel s acc) s)
  /\ (forall s acc, (2 * List.length s + 2 <= fuel)%nat ->
                    good (parseMembers fuel s acc) s).
Proof.
  induction fuel as [|f [IHv [IHe IHm]]].
  - repeat split; intros; lia.
  - repeat split.
    + intros s Hf. cbn [parseValue].
      destruct s as [|c rest]; [exact I|].
      cbn [List.length] in Hf.
      pose proof (skipWs_length rest) as Hws.
      destruct (c =? 123).
      { destruct (expect 125 (skipWs rest)) as [rest1|] eqn:He.
        - apply expect_length in He. simpl. lia.
        - apply good_weaken with (s' := skipWs rest);
            [apply IHm|]; simpl; lia. }
      destruct (c =? 91).
      { destruct (expect 93 (skipWs rest)) as [rest1|] eqn:He.
        - apply expect_length in He. simpl. lia.
        - apply good_weaken with (s' := skipWs rest);
            [apply IHe|]; simpl; lia. }
      destruct (c =? 34).
      { apply good_asString with (s' := rest);
          [apply parseStringBody_good | simpl; lia]. }
      destruct (startsWith (js "true") (c :: rest)).
      { apply skipn_shorter; [lia | discriminate]. }
      destruct (startsWith (js "false") (c :: rest)).
      { apply skipn_shorter; [lia | discriminate]. }
      destruct (startsWith (js "null") (c :: rest)).
      { apply skipn_shorter; [lia | discriminate]. }
      destruct ((c =? 45) || isDigit c); [apply parseNumber_good | exact I].
    + intros s acc Hf. cbn [parseElements].
      assert (Hv : good (parseValue f s) s) by (apply IHv; lia).
      destruct (parseValue f s) as [v rest| |]; [|exact I|exact Hv].
      simpl in Hv.
      pose proof (skipWs_length rest) as Hws.
      destruct (expect 44 (skipWs rest)) as [rest1|] eqn:He.
      * apply expect_length in He.
        pose proof (skipWs_length rest1) as Hws1.
        apply good_weaken with (s' := skipWs rest1); [apply IHe|]; lia.
      * destruct (expect 93 (skipWs rest)) as [rest1|] eqn:He'; [|exact I].
        apply expect_length in He'. simpl. lia.
    + intros s acc Hf. cbn [parseMembers].
      destruct (expect 34 s) as [body|] eqn:Hq; [|exact I].
      apply expect_length in Hq.
      pose proof (parseStringBody_good body) as Hk.
      destruct (parseStringBody body) as [k rest| |]; [|exact I|exact Hk].
      simpl in Hk.
      pose proof (skipWs_length rest) as Hws.
      destruct (expect 58 (skipWs rest)) as [rest1|] eqn:Hc; [|exact I].
      apply expect_length in Hc.
      pose proof (skipWs_length rest1) as Hws1.
      assert (Hv : good (parseValue f (skipWs rest1)) (skipWs rest1))
        by (apply IHv; lia).
      destruct (parseValue f (skipWs rest1)) as [v rest2| |];
        [|exact I|exact Hv].
      simpl in Hv.
      pose proof (skipWs_length rest2) as Hws2.
      destruct (expect 44 (skipWs rest2)) as [rest3|] eqn:He.
      * apply expect_length in He.
        pose proof (skipWs_length rest3) as Hws3.
        apply good_weaken with (s' := skipWs rest3); [apply IHm|]; lia.
      * destruct (expect 125 (skipWs rest2)) as [rest3|] eqn:He'; [|exact I].
        apply expect_length in He'. simpl. lia.
Qed.

(** [JSON.parse] is total: every text is parsed or rejected. *)
Lemma parseText_total (text : JsString) : parseText text <> OutOfFuel.
Proof.
  unfold parseText, fuelFor.
  pose proof (skipWs_length text) as Hws.
  assert (Hv : good (parseValue (2 * List.length text + 1) (skipWs text))
                    (skipWs text))
    by (apply (proj1 (parsers_good _)); lia).
  destruct (parseValue _ (skipWs text)) as [v rest| |]; try discriminate.
  - destruct (skipWs rest); discriminate.
  - destruct Hv.
Qed.

(** So a [SyntaxError] from [JSON.parse] always stands for a text the
    grammar rejects. *)
Lemma parse_throws_on_rejected_text (syntaxErrorMessage : JsString -> JsString)
      (text : JsString) (e : JsError) :
  parse syntaxErrorMessage text = Throw e -> parseText text = SyntaxErr.
Proof.
  unfold parse. pose proof (parseText_total text) as Htotal.
  destruct (parseText text); [discriminate | reflexivity | now destruct Htotal].
Qed.

End JSONFacts.

(** ** Transcript aggregation *)

Section Aggregation.

Lemma join_loop_later (sep : JsString) (xs : list JsString) :
  forall R k, join_loop sep R (S k) xs = R ++ List.concat (map (app sep) xs).
Proof.
  induction xs as [|x xs IH]; intros R k; simpl.
  - now rewrite app_nil_r.
  - rewrite IH. now rewrite <- !app_assoc.
Qed.

Lemma spaceSeparated_cons (t : JsString) (rest : list JsString) :
  spaceSeparated (t :: rest) = t ++ List.concat (map (app (js " ")) rest).
Proof.
  revert t; induction rest as [|u rest IH]; intros t.
  - simpl. now rewrite app_nil_r.
  - change (spaceSeparated (t :: u :: rest))
      with (t ++ js " " ++ spaceSeparated (u :: rest)).
    rewrite IH. cbn [map List.concat]. now rewrite <- app_assoc.
Qed.

Lemma join_spaceSeparated (xs : list JsString) :
  join (js " ") xs = spaceSeparated xs.
Proof.
  destruct xs as [|x xs]; [reflexivity|].
  unfold join. cbn [join_loop].
  now rewrite join_loop_later, spaceSeparated_cons.
Qed.

Lemma finalTexts_filter (segments : list SpeechResult) :
  map transcriptOf (filter isResultType segments) = finalTexts segments.
Proof.
  induction segments as [|[text|t ts] rest IH]; simpl; congruence.
Qed.

Lemma finalTexts_app (before after : list SpeechResult) :
  finalTexts (before ++ after) = finalTexts before ++ finalTexts after.
Proof.
  induction before as [|[text|t ts] rest IH]; simpl; congruence.
Qed.

Lemma combineTranscripts_refines (segments : list SpeechResult) :
  combineTranscripts segments = aggregate_spec segments.
Proof.
  unfold combineTranscripts, aggregate_spec.
  now rewrite finalTexts_filter, join_spaceSeparated.
Qed.

(** C4.  The aggregation computed by the effect is the space-separated
    concatenation of the texts of exactly the final segments, in arrival
    order; when every segment is final it is the space-separated
    concatenation of all the texts; a non-final segment changes nothing
    wherever it stands; and running the effect again on the same
    sequence gives the same answer text. *)
Theorem aggregation_is_space_joined_finals :
  forall segments : list SpeechResult,
    combineTranscripts segments = aggregate_spec segments
    /\ (forall finals : list (JsString * N),
          combineTranscripts (map (fun p => Result (fst p) (snd p)) finals)
          = spaceSeparated (map fst finals))
    /\ (forall before after text,
          segments = before ++ LegacyResult text :: after ->
          combineTranscripts segments = combineTranscripts (before ++ after))
    /\ (forall st,
          resultsEffect segments (resultsEffect segments st)
          = resultsEffect segments st).
Proof.
  intros segments. repeat split.
  - apply combineTranscripts_refines.
  - intros finals. rewrite combineTranscripts_refines.
    unfold aggregate_spec. f_equal.
    induction finals as [|[t ts] rest IH]; simpl; congruence.
  - intros before after text ->.
    rewrite !combineTranscripts_refines. unfold aggregate_spec.
    now rewrite !finalTexts_app.
  - intros st. destruct segments; reflexivity.
Qed.

(** The theorem at a sequence with a non-final segment in the middle. *)
Lemma aggregation_is_space_joined_finals_witness :
  combineTranscripts
    [Result (js "I would") 1; LegacyResult (js "use a"); Result (js "use a map") 2]
  = combineTranscripts [Result (js "I would") 1; Result (js "use a map") 2]
  /\ combineTranscripts [Result (js "I would") 1; Result (js "use a map") 2]
     = js "I would use a map".
Proof.
  split.
  - apply (proj1 (proj2 (proj2
             (aggregation_is_space_joined_finals
                [Result (js "I would") 1; LegacyResult (js "use a");
                 Result (js "use a map") 2])))
             [Result (js "I would") 1] [Result (js "use a map") 2]
             (js "use a")).
    reflexivity.
  - reflexivity.
Defined.

End Aggregation.

(** ** The tiered parser *)

Section ParserFacts.

Variable syntaxErrorMessage : JsString -> JsString.

Lemma lazyToClose_first (mid post : JsString) :
  lacks closeBrace mid = true ->
  lazyToClose (mid ++ closeBrace :: post) = Some (mid ++ [closeBrace]).
Proof.
  induction mid as [|c mid IH]; simpl.
  - intros _. now rewrite ?N.eqb_refl.
  - intros H. apply andb_prop in H as [Hc Hmid].
    apply negb_true_iff in Hc. rewrite Hc, IH by assumption. reflexivity.
Qed.

Lemma lazyToClose_none (s : JsString) :
  lazyToClose s = None -> lacks closeBrace s = true.
Proof.
  induction s as [|c s IH]; simpl; [reflexivity|].
  destruct (c =? closeBrace); [discriminate|].
  destruct (lazyToClose s); [discriminate|]. auto.
Qed.

Lemma matchObject_needs_close (s : JsString) :
  lacks closeBrace s = true -> matchObject s = None.
Proof.
  induction s as [|c s IH]; simpl; [reflexivity|].
  intros H. apply andb_prop in H as [Hc Hs].
  destruct (c =? openBrace); [|auto].
  destruct (lazyToClose s) eqn:Hl; [|auto].
  exfalso. clear IH Hc. revert j Hl.
  induction s as [|d s IHs]; intros j Hl; simpl in *; [discriminate|].
  apply andb_prop in Hs as [Hd Hs]. apply negb_true_iff in Hd.
  rewrite Hd in Hl. destruct (lazyToClose s); [eauto | discriminate].
Qed.

(** The pattern search returns the span from the first opening brace to
    the first closing brace after it. *)
Lemma matchObject_first_span (pre mid post : JsString) :
  lacks openBrace pre = true ->
  lacks closeBrace mid = true ->
  matchObject (pre ++ openBrace :: mid ++ closeBrace :: post)
  = Some (openBrace :: mid ++ [closeBrace]).
Proof.
  intros Hpre Hmid.
  induction pre as [|c pre IH]; simpl.
  - rewrite ?N.eqb_refl, lazyToClose_first by assumption. reflexivity.
  - simpl in Hpre. apply andb_prop in Hpre as [Hc Hpre].
    apply negb_true_iff in Hc. rewrite Hc. auto.
Qed.

(** Conversely, whatever it returns is such a span. *)
Lemma matchObject_sound (s m : JsString) :
  matchObject s = Some m ->
  exists pre mid post,
    s = pre ++ openBrace :: mid ++ closeBrace :: post
    /\ m = openBrace :: mid ++ [closeBrace]
    /\ lacks openBrace pre = true
    /\ lacks closeBrace mid = true.
Proof.
  revert m; induction s as [|c s IH]; intros m; simpl; [discriminate|].
  destruct (c =? openBrace) eqn:Hc.
  - apply N.eqb_eq in Hc; subst c.
    destruct (lazyToClose s) as [m'|] eqn:Hl; simpl.
    + intros H; injection H as <-.
      exists []. clear IH. revert m' Hl.
      induction s as [|d s IHs]; intros m' Hl; simpl in Hl; [discriminate|].
      destruct (d =? closeBrace) eqn:Hd.
      * apply N.eqb_eq in Hd; subst d. injection Hl as <-.
        exists [], s. repeat split.
      * destruct (lazyToClose s) as [m''|] eqn:Hl'; [|discriminate].
        injection Hl as <-.
        destruct (IHs m'' eq_refl) as (mid & post & Hs & Hm & _ & Hmid).
        injection Hs as Hs. injection Hm as Hm.
        exists (d :: mid), post. subst s m''. repeat split.
        simpl. now rewrite Hd, Hmid.
    + intros H. apply lazyToClose_none in Hl.
      rewrite (matchObject_needs_close s Hl) in H. discriminate.
  - intros H. destruct (IH m H) as (pre & mid & post & -> & -> & Hpre & Hmid).
    exists (c :: pre), mid, post. repeat split; [|assumption].
    simpl. now rewrite Hc, Hpre.
Qed.

(** C1.  When the direct parse and the fence-stripped parse both fail,
    the parser searches the text for the span from its first opening
    brace to the first closing brace after it and parses that span: the
    outcome is the parsed value, or the failure of that parse.  On the
    commentary-wrapped example it yields rating 3 and feedback
    "Needs work", the first two tiers having failed. *)
Theorem extraction_tier_parses_first_brace_span :
  (forall text e1 e2 pre mid post,
      JSON_parse syntaxErrorMessage text = Throw e1 ->
      JSON_parse syntaxErrorMessage (trim (replaceFences 0 text)) = Throw e2 ->
      text = pre ++ openBrace :: mid ++ closeBrace :: post ->
      lacks openBrace pre = true ->
      lacks closeBrace mid = true ->
      matchObject text = Some (openBrace :: mid ++ [closeBrace])
      /\ fst (cleanJsonResponse syntaxErrorMessage text)
         = match JSON_parse syntaxErrorMessage (openBrace :: mid ++ [closeBrace]) with
           | Normal v => Normal v
           | Throw e =>
               Throw (newError (js "Invalid JSON format: " ++ message e))
           end)
  /\ (exists e1, JSON_parse syntaxErrorMessage extractionExample = Throw e1)
  /\ (exists e2, JSON_parse syntaxErrorMessage (trim (replaceFences 0 extractionExample)) = Throw e2)
  /\ cleanJsonResponse syntaxErrorMessage extractionExample = (Normal needsWork, [])
  /\ getProp needsWork (js "ratings") = Some (number 3)
  /\ getProp needsWork (js "feedback") = Some (JString (js "Needs work")).
Proof.
  split; [|repeat split; try (eexists; vm_compute; reflexivity);
            vm_compute; reflexivity].
  intros text e1 e2 pre mid post H1 H2 Htext Hpre Hmid.
  assert (Hm : matchObject text = Some (openBrace :: mid ++ [closeBrace]))
    by (subst text; now apply matchObject_first_span).
  split; [exact Hm|].
  unfold cleanJsonResponse, extractionParse.
  rewrite H1, H2, Hm.
  destruct (JSON_parse syntaxErrorMessage (openBrace :: mid ++ [closeBrace])); reflexivity.
Qed.

(** C7, as the code has it.  When all three tiers fail, the parser
    throws an error whose message is "Invalid JSON format: " followed by
    the message of the last tier's error, and writes the original raw
    text to the error console; the thrown value itself is built from
    the last tier's message only.  On "not json at all" the three tiers
    fail in turn and the message is the one for a text in which the
    pattern matches nowhere. *)
Theorem exhausted_tiers_throw_and_log_raw_text :
  (forall text e1 e2 e3,
      JSON_parse syntaxErrorMessage text = Throw e1 ->
      JSON_parse syntaxErrorMessage (trim (replaceFences 0 text)) = Throw e2 ->
      extractionParse syntaxErrorMessage text = Throw e3 ->
      cleanJsonResponse syntaxErrorMessage text
      = (Throw (newError (js "Invalid JSON format: " ++ message e3)),
         [ConsoleErrorText (js "JSON parsing failed:") text]))
  /\ (exists e1, JSON_parse syntaxErrorMessage notJson = Throw e1)
  /\ (exists e2, JSON_parse syntaxErrorMessage (trim (replaceFences 0 notJson)) = Throw e2)
  /\ matchObject notJson = None
  /\ cleanJsonResponse syntaxErrorMessage notJson
     = (Throw extractFailure,
        [ConsoleErrorText (js "JSON parsing failed:") notJson]).
Proof.
  split; [|repeat split; try (eexists; vm_compute; reflexivity);
            vm_compute; reflexivity].
  intros text e1 e2 e3 H1 H2 H3.
  unfold cleanJsonResponse. now rewrite H1, H2, H3.
Qed.

End ParserFacts.

(** The theorem of C1 at the commentary-wrapped example. *)
Lemma extraction_tier_parses_first_brace_span_witness :
  fst (cleanJsonResponse sampleSyntaxMessage extractionExample)
  = Normal needsWork.
Proof.
  refine (eq_trans
            (proj2 (proj1 (extraction_tier_parses_first_brace_span
                             sampleSyntaxMessage)
                          extractionExample _ _
                          (js "Here is the result: ")
                          (jsq "'ratings':3,'feedback':'Needs work'")
                          (js " Thanks!") _ _ _ _ _)) _);
    vm_compute; reflexivity.
Defined.

(** C7 as stated fails: on "not json at all" the error thrown after the
    three tiers mentions the raw text nowhere. *)
Lemma parse_error_value_lacks_raw_text :
  cleanJsonResponse sampleSyntaxMessage notJson
  = (Throw extractFailure,
     [ConsoleErrorText (js "JSON parsing failed:") notJson])
  /\ carriesText extractFailure notJson = false.
Proof.
  split; vm_compute; reflexivity.
Qed.

(** The theorem of C7 at "not json at all". *)
Lemma exhausted_tiers_throw_and_log_raw_text_witness :
  cleanJsonResponse sampleSyntaxMessage notJson
  = (Throw extractFailure,
     [ConsoleErrorText (js "JSON parsing failed:") notJson]).
Proof.
  refine (eq_trans
            (proj1 (exhausted_tiers_throw_and_log_raw_text sampleSyntaxMessage)
                   notJson _ _ (newError (js "Could not extract valid JSON"))
                   _ _ _) _);
    vm_compute; reflexivity.
Defined.

(** ** generateResult *)

Section EvaluationFacts.

Variable syntaxErrorMessage : JsString -> JsString.

Lemma typeof_number (v : option Json) :
  JsType_eqb (typeof v) TNumber = true -> exists d, v = Some (JNumber d).
Proof.
  destruct v as [[| | d | | |]|]; simpl; try discriminate. eauto.
Qed.

Lemma typeof_string (v : option Json) :
  JsType_eqb (typeof v) TString = true -> exists s, v = Some (JString s).
Proof.
  destruct v as [[| | | s | |]|]; simpl; try discriminate. eauto.
Qed.

Lemma JsType_eqb_neq (a b : JsType) : a <> b -> JsType_eqb a b = false.
Proof.
  destruct a, b; simpl; intros H; try reflexivity; now destruct H.
Qed.

(** Every error of the tiered parser starts "Invalid JSON format: ". *)
Lemma cleanJsonResponse_error (text : JsString) (e : JsError)
      (cmds : list Command) :
  cleanJsonResponse syntaxErrorMessage text = (Throw e, cmds) ->
  exists m, e = newError (js "Invalid JSON format: " ++ m).
Proof.
  unfold cleanJsonResponse.
  destruct (JSON_parse syntaxErrorMessage text); [discriminate|].
  destruct (JSON_parse syntaxErrorMessage _); [discriminate|].
  destruct (extractionParse syntaxErrorMessage text) as [v|e3];
    [discriminate|].
  intros H; injection H as <- _. exists (message e3). reflexivity.
Qed.

(** What [generateResult] returns and the state it leaves, in terms of
    the outcome of its [try] block. *)
Lemma generateResult_outcome (qst qstAns userAns raw : JsString) (st : State) :
  fst (fst (generateResult syntaxErrorMessage qst qstAns userAns (Normal raw) st))
  = fst (parseAndValidate syntaxErrorMessage raw).
Proof.
  unfold generateResult.
  destruct (parseAndValidate syntaxErrorMessage raw) as [o c]. reflexivity.
Qed.

Lemma generateResult_keeps (qst qstAns userAns : JsString)
      (reply : Completion JsString) (st : State) :
  let st' := snd (fst (generateResult syntaxErrorMessage qst qstAns userAns reply st)) in
  aiResult st' = aiResult st /\ userAnswer st' = userAnswer st.
Proof.
  unfold generateResult.
  destruct reply as [raw|e].
  - destruct (parseAndValidate syntaxErrorMessage raw) as [o c]. split; reflexivity.
  - split; reflexivity.
Qed.

(** C6.  When the parsed record lacks a numeric [ratings] or a textual
    [feedback], [generateResult] throws "Invalid response structure",
    an error no failure of the parser equals; the stored AIResponse is
    left as it was, also by the record handler that called it.  The
    record with the string rating "high" is rejected this way. *)
Theorem invalid_shape_is_validation_error :
  (forall raw parsed cmds qst qstAns userAns st env,
      cleanJsonResponse syntaxErrorMessage raw = (Normal parsed, cmds) ->
      typeof (getProp parsed (js "ratings")) <> TNumber
      \/ typeof (getProp parsed (js "feedback")) <> TString ->
      fst (fst (generateResult syntaxErrorMessage qst qstAns userAns
                               (Normal raw) st))
      = Throw invalidStructure
      /\ aiResult (snd (fst (generateResult syntaxErrorMessage qst qstAns
                                            userAns (Normal raw) st)))
         = aiResult st
      /\ aiResult (fst (recordUserAnswer syntaxErrorMessage env true
                                         (Normal raw) st))
         = aiResult st)
  /\ (forall text e cmds,
         cleanJsonResponse syntaxErrorMessage text = (Throw e, cmds) ->
         e <> invalidStructure)
  /\ (forall qst qstAns userAns st,
         fst (fst (generateResult syntaxErrorMessage qst qstAns userAns
                                  (Normal wrongTypeReply) st))
         = Throw invalidStructure).
Proof.
  split; [|split].
  - intros raw parsed cmds qst qstAns userAns st env Hclean Hshape.
    assert (Ho : forall q a u,
               fst (fst (generateResult syntaxErrorMessage q a u
                                        (Normal raw) st))
               = Throw invalidStructure).
    { intros q a u.
      rewrite generateResult_outcome. unfold parseAndValidate.
      rewrite Hclean.
      destruct Hshape as [Hr|Hf].
      - rewrite (JsType_eqb_neq _ _ Hr). reflexivity.
      - rewrite (JsType_eqb_neq _ _ Hf). rewrite orb_true_r. reflexivity. }
    split; [apply Ho|]. split; [apply generateResult_keeps|].
    specialize (Ho (Question.question (question env))
                   (Question.answer (question env)) (userAnswer st)).
    pose proof (generateResult_keeps (Question.question (question env))
                  (Question.answer (question env)) (userAnswer st)
                  (Normal raw) st) as [Hk _].
    unfold recordUserAnswer.
    destruct (generateResult syntaxErrorMessage _ _ _ (Normal raw) st)
      as [[o st1] c].
    simpl in Ho, Hk. subst o. exact Hk.
  - intros text e cmds H Heq.
    apply cleanJsonResponse_error in H as [m ->].
    vm_compute in Heq. discriminate Heq.
  - intros qst qstAns userAns st. rewrite generateResult_outcome.
    vm_compute. reflexivity.
Qed.

(** C8, as the code has it.  The AIResponse returned by a successful
    evaluation is a record whose [ratings] is a number and whose
    [feedback] is a string; the check is on the types only. *)
Theorem evaluated_response_is_number_and_text :
  forall qst qstAns userAns reply st r st' cmds,
    generateResult syntaxErrorMessage qst qstAns userAns reply st
    = (Normal r, st', cmds) ->
    exists d s,
      getProp r (js "ratings") = Some (JNumber d)
      /\ getProp r (js "feedback") = Some (JString s).
Proof.
  intros qst qstAns userAns reply st r st' cmds H.
  unfold generateResult in H.
  destruct reply as [raw|e]; [|discriminate].
  unfold parseAndValidate in H.
  destruct (cleanJsonResponse syntaxErrorMessage raw) as [[parsed|e] c];
    [|discriminate].
  destruct (JsType_eqb (typeof (getProp parsed (js "ratings"))) TNumber)
    eqn:Hr; [|discriminate].
  destruct (JsType_eqb (typeof (getProp parsed (js "feedback"))) TString)
    eqn:Hf; [|discriminate].
  simpl in H. injection H as <- _ _.
  apply typeof_number in Hr as [d Hd].
  apply typeof_string in Hf as [s Hs]. eauto.
Qed.

End EvaluationFacts.

(** The theorem of C6 at the record with rating "high". *)
Lemma invalid_shape_is_validation_error_witness :
  fst (fst (generateResult sampleSyntaxMessage (js "Q") (js "A") (js "U")
                           (Normal wrongTypeReply) initialState))
  = Throw invalidStructure.
Proof.
  refine (proj1 (proj1 (invalid_shape_is_validation_error sampleSyntaxMessage)
                       wrongTypeReply
                       (JObject [(js "ratings", JString (js "high"));
                                 (js "feedback", JString (js "ok"))])
                       [] (js "Q") (js "A") (js "U") initialState sampleEnv
                       _ _)).
  - vm_compute; reflexivity.
  - left. vm_compute. discriminate.
Defined.

(** C8 as stated fails: a reply rating the answer 11, or 7.5, passes the
    validation and is returned, yet is not an integer from 1 to 10. *)
Lemma rating_outside_range_is_accepted :
  fst (fst (generateResult sampleSyntaxMessage (js "Q") (js "A") (js "U")
                           (Normal elevenReply) initialState))
  = Normal eleven
  /\ isRatingInRange (getProp eleven (js "ratings")) = false
  /\ fst (fst (generateResult sampleSyntaxMessage (js "Q") (js "A") (js "U")
                              (Normal fractionReply) initialState))
     = Normal sevenAndHalf
  /\ isRatingInRange (getProp sevenAndHalf (js "ratings")) = false.
Proof.
  repeat split; vm_compute; reflexivity.
Qed.

(** The theorem of C8 at the reply rating the answer 11. *)
Lemma evaluated_response_is_number_and_text_witness :
  exists d s,
    getProp eleven (js "ratings") = Some (JNumber d)
    /\ getProp eleven (js "feedback") = Some (JString s).
Proof.
  refine (evaluated_response_is_number_and_text sampleSyntaxMessage
            (js "Q") (js "A") (js "U") (Normal elevenReply) initialState
            eleven _ _ _).
  vm_compute. reflexivity.
Defined.


(** ** saveUserAnswer *)

Section SaveFacts.

Variable env : Env.

Lemma filter_existsb (docs : list Doc.t) :
  existsb (keyOf env) docs = true -> filter (keyOf env) docs <> [].
Proof.
  induction docs as [|d docs IH]; simpl; [discriminate|].
  destruct (keyOf env d); simpl; [discriminate | exact IH].
Qed.

Lemma filter_append_one (docs : list Doc.t) (d : Doc.t) :
  filter (keyOf env) docs = [] -> keyOf env d = true ->
  filter (keyOf env) (docs ++ [d]) = [d].
Proof.
  intros Hnone Hd. rewrite filter_app, Hnone. simpl. now rewrite Hd.
Qed.

(** The document written by a save carries the key it was checked under. *)
Lemma saved_doc_has_key (st : State) (result : Json) (t : N) :
  keyOf env (answerDoc env st result t) = true.
Proof.
  assert (Hrefl : forall s, strEqb s s = true).
  { induction s as [|c s IH]; simpl; [reflexivity|].
    now rewrite N.eqb_refl, IH. }
  unfold keyOf, matchesKey. simpl. now rewrite !Hrefl.
Qed.

(** A first save into a store without a record for the key, with the
    store answering: the document is appended and "Saved" is reported. *)
Lemma save_into_fresh_store (isRec : bool) (run : StoreRun) (st : State)
      (docs : list Doc.t) (result : Json) :
  aiResult st = Some result ->
  queryError run = None ->
  insertError run = None ->
  filter (keyOf env) docs = [] ->
  saveUserAnswer env isRec run st docs
  = (saveFinally (setAiResult None (setUserAnswer [] (setLoading true st))),
     docs ++ [answerDoc env st result (serverTimestamp run)],
     [GetDocs (userId env) (Question.question (question env)) (interviewId env);
      AddDoc (answerDoc env st result (serverTimestamp run));
      savedToast]
     ++ (if isRec then [StopSpeechToText] else [])).
Proof.
  intros Hai Hq Hi Hnone.
  unfold saveUserAnswer. rewrite Hai, Hq, Hnone, Hi. reflexivity.
Qed.

(** A save never removes or alters a stored document, and the only thing
    it ever adds is one document under its own key. *)
Lemma save_writes_nothing_on_match (isRec : bool) (run : StoreRun)
      (st : State) (docs : list Doc.t) :
  filter (keyOf env) docs <> [] ->
  docsOf (saveUserAnswer env isRec run st docs) = docs.
Proof.
  intros Hmatch. unfold saveUserAnswer.
  destruct (aiResult st); [|reflexivity].
  destruct (queryError run); [reflexivity|].
  destruct (filter (keyOf env) docs); [now destruct Hmatch | reflexivity].
Qed.

(** C5.  With an AIResponse to save and a query that answers, a stored
    record matching the user, the question and the interview makes the
    save report "Already Answered" and leave the store as it was.
    Hence, when no record matches at first and the first save goes
    through, a second save under the same key, whatever the component
    holds by then and however the store answers, writes nothing: the
    store holds exactly one record for the key. *)
Theorem existing_record_means_already_answered :
  (forall isRec run st docs result,
      aiResult st = Some result ->
      queryError run = None ->
      existsb (keyOf env) docs = true ->
      saveUserAnswer env isRec run st docs
      = (saveFinally (setLoading true st), docs,
         [GetDocs (userId env) (Question.question (question env))
                  (interviewId env);
          alreadyAnsweredToast]))
  /\ (forall isRec1 run1 st1 docs result isRec2 run2 st2,
         aiResult st1 = Some result ->
         queryError run1 = None ->
         insertError run1 = None ->
         filter (keyOf env) docs = [] ->
         In savedToast (commandsOf (saveUserAnswer env isRec1 run1 st1 docs))
         /\ docsOf (saveUserAnswer env isRec2 run2 st2
                      (docsOf (saveUserAnswer env isRec1 run1 st1 docs)))
            = docsOf (saveUserAnswer env isRec1 run1 st1 docs)
         /\ List.length
              (filter (keyOf env)
                 (docsOf (saveUserAnswer env isRec2 run2 st2
                            (docsOf (saveUserAnswer env isRec1 run1 st1 docs)))))
            = 1%nat).
Proof.
  split.
  - intros isRec run st docs result Hai Hq Hex.
    apply filter_existsb in Hex.
    unfold saveUserAnswer. rewrite Hai, Hq.
    destruct (filter (keyOf env) docs); [now destruct Hex | reflexivity].
  - intros isRec1 run1 st1 docs result isRec2 run2 st2 Hai Hq Hi Hnone.
    rewrite (save_into_fresh_store isRec1 run1 st1 docs result Hai Hq Hi Hnone).
    set (d := answerDoc env st1 result (serverTimestamp run1)).
    change (docsOf (?s, docs ++ [d], ?c)) with (docs ++ [d]).
    pose proof (filter_append_one docs d Hnone
                  (saved_doc_has_key st1 result (serverTimestamp run1)))
      as Hone.
    assert (Hkeep : docsOf (saveUserAnswer env isRec2 run2 st2 (docs ++ [d]))
                    = docs ++ [d]).
    { apply save_writes_nothing_on_match. rewrite Hone. discriminate. }
    split; [|split].
    + unfold commandsOf. simpl. auto.
    + exact Hkeep.
    + rewrite Hkeep, Hone. reflexivity.
Qed.

(** A save started from the state a failed save left behaves as one
    started from the state before it. *)
Lemma save_after_finally (isRec : bool) (run : StoreRun) (st : State)
      (docs : list Doc.t) :
  aiResult st <> None ->
  saveUserAnswer env isRec run (saveFinally (setLoading true st)) docs
  = saveUserAnswer env isRec run st docs.
Proof.
  intros Hai. unfold saveUserAnswer. simpl.
  destruct (aiResult st); [reflexivity | now destruct Hai].
Qed.

(** C9.  When the query or the insert of a save fails, the answer text
    and the AIResponse the component holds are what they were, and so is
    the store; the failure is reported; and a later save from the state
    left behind does what it would have done from the state before. *)
Theorem failed_save_preserves_answer_and_feedback :
  forall isRec run st docs error,
    queryError run = Some error \/ insertError run = Some error ->
    userAnswer (stateOf (saveUserAnswer env isRec run st docs)) = userAnswer st
    /\ aiResult (stateOf (saveUserAnswer env isRec run st docs)) = aiResult st
    /\ docsOf (saveUserAnswer env isRec run st docs) = docs
    /\ (aiResult st <> None ->
        queryError run = Some error
        \/ (queryError run = None /\ filter (keyOf env) docs = []) ->
        incl (saveFailed error)
             (commandsOf (saveUserAnswer env isRec run st docs)))
    /\ (forall isRec' run',
          saveUserAnswer env isRec' run'
                         (stateOf (saveUserAnswer env isRec run st docs))
                         (docsOf (saveUserAnswer env isRec run st docs))
          = saveUserAnswer env isRec' run' st docs).
Proof.
  intros isRec run st docs error Hfail.
  assert (Hdocs : docsOf (saveUserAnswer env isRec run st docs) = docs).
  { unfold saveUserAnswer.
    destruct (aiResult st); [|reflexivity].
    destruct (queryError run) eqn:Hq; [reflexivity|].
    destruct (filter (keyOf env) docs); [|reflexivity].
    destruct (insertError run) eqn:Hi; [reflexivity|].
    destruct Hfail; discriminate. }
  assert (Hstate : stateOf (saveUserAnswer env isRec run st docs) = st
                   \/ (aiResult st <> None
                       /\ stateOf (saveUserAnswer env isRec run st docs)
                          = saveFinally (setLoading true st))).
  { unfold saveUserAnswer.
    destruct (aiResult st) eqn:Hai; [|left; reflexivity].
    destruct (queryError run) eqn:Hq; [right; split; [discriminate|reflexivity]|].
    destruct (filter (keyOf env) docs);
      [|right; split; [discriminate|reflexivity]].
    destruct (insertError run) eqn:Hi;
      [right; split; [discriminate|reflexivity]|].
    destruct Hfail; discriminate. }
  split; [|split; [|split; [exact Hdocs|split]]].
  - destruct Hstate as [->|[_ ->]]; reflexivity.
  - destruct Hstate as [->|[_ ->]]; reflexivity.
  - intros Hai Hreached. unfold saveUserAnswer.
    destruct (aiResult st); [|now destruct Hai].
    destruct Hreached as [Hq|[Hq Hnone]].
    + rewrite Hq. unfold commandsOf. simpl. apply incl_tl, incl_refl.
    + rewrite Hq, Hnone.
      destruct Hfail as [Hq'|Hi]; [congruence|]. rewrite Hi.
      unfold commandsOf. simpl. apply incl_tl, incl_tl, incl_refl.
  - intros isRec' run'. rewrite Hdocs.
    destruct Hstate as [->|[Hai ->]]; [reflexivity|].
    now apply save_after_finally.
Qed.

(** C10.  A save that reports "Saved" leaves the answer text empty and
    the AIResponse null and, when a recording was active, has asked the
    recognizer to stop; a save that reports "Already Answered" leaves the
    answer text, the AIResponse and the store as they were. *)
Theorem save_outcome_effects_on_state :
  forall isRec run st docs,
    (In savedToast (commandsOf (saveUserAnswer env isRec run st docs)) ->
     userAnswer (stateOf (saveUserAnswer env isRec run st docs)) = []
     /\ aiResult (stateOf (saveUserAnswer env isRec run st docs)) = None
     /\ (isRec = true ->
         In StopSpeechToText
            (commandsOf (saveUserAnswer env isRec run st docs))))
    /\ (In alreadyAnsweredToast
           (commandsOf (saveUserAnswer env isRec run st docs)) ->
        userAnswer (stateOf (saveUserAnswer env isRec run st docs))
        = userAnswer st
        /\ aiResult (stateOf (saveUserAnswer env isRec run st docs))
           = aiResult st
        /\ docsOf (saveUserAnswer env isRec run st docs) = docs).
Proof.
  intros isRec run st docs. unfold saveUserAnswer.
  destruct (aiResult st) as [result|] eqn:Hai.
  2:{ split; intros [H|[]]; discriminate H. }
  destruct (queryError run) as [e|].
  { split; intros [H|[H|[H|[]]]]; discriminate H. }
  destruct (filter (keyOf env) docs) as [|d found].
  - destruct (insertError run) as [e|].
    + split; intros [H|[H|[H|[H|[]]]]]; discriminate H.
    + split.
      * intros _. repeat split.
        intros ->. unfold commandsOf. simpl. auto.
      * unfold commandsOf. cbn [snd app].
        intros [H|[H|[H|H]]]; try discriminate H.
        destruct isRec; [destruct H as [H|[]]; discriminate H | destruct H].
  - split.
    + intros [H|[H|[]]]; discriminate H.
    + intros _. repeat split. exact Hai.
Qed.

End SaveFacts.

(** The theorem of C5 at a store already holding the record, and at two
    saves in a row into an empty store. *)
Lemma existing_record_means_already_answered_witness :
  saveUserAnswer sampleEnv false (cleanRun 2) answeredState
                 [answerDoc sampleEnv answeredState needsWork 1]
  = (saveFinally (setLoading true answeredState),
     [answerDoc sampleEnv answeredState needsWork 1],
     [GetDocs (userId sampleEnv) (Question.question (question sampleEnv))
              (interviewId sampleEnv);
      alreadyAnsweredToast])
  /\ List.length
       (filter (keyOf sampleEnv)
          (docsOf (saveUserAnswer sampleEnv false (cleanRun 2) answeredState
                     (docsOf (saveUserAnswer sampleEnv false (cleanRun 1)
                                             answeredState [])))))
     = 1%nat.
Proof.
  split.
  - apply (proj1 (existing_record_means_already_answered sampleEnv)
                 false (cleanRun 2) answeredState
                 [answerDoc sampleEnv answeredState needsWork 1] needsWork);
      reflexivity.
  - apply (proj2 (existing_record_means_already_answered sampleEnv)
                 false (cleanRun 1) answeredState [] needsWork
                 false (cleanRun 2) answeredState);
      reflexivity.
Defined.

(** The theorem of C9 at a save whose query is refused. *)
Lemma failed_save_preserves_answer_and_feedback_witness :
  userAnswer (stateOf (saveUserAnswer sampleEnv false failingQuery
                                      answeredState []))
  = userAnswer answeredState
  /\ aiResult (stateOf (saveUserAnswer sampleEnv false failingQuery
                                       answeredState []))
     = Some needsWork.
Proof.
  pose proof (failed_save_preserves_answer_and_feedback sampleEnv false
                failingQuery answeredState []
                (newError (js "unavailable")) (or_introl eq_refl))
    as (Hanswer & Hfeedback & _).
  split; [exact Hanswer | exact Hfeedback].
Defined.

(** The theorem of C10 at a save that goes through while recording. *)
Lemma save_outcome_effects_on_state_witness :
  userAnswer (stateOf (saveUserAnswer sampleEnv true (cleanRun 1)
                                      answeredState [])) = []
  /\ aiResult (stateOf (saveUserAnswer sampleEnv true (cleanRun 1)
                                       answeredState [])) = None
  /\ In StopSpeechToText
        (commandsOf (saveUserAnswer sampleEnv true (cleanRun 1)
                                    answeredState [])).
Proof.
  destruct (proj1 (save_outcome_effects_on_state sampleEnv true (cleanRun 1)
                     answeredState []))
    as (Hanswer & Hfeedback & Hstop).
  - vm_compute. auto.
  - split; [exact Hanswer | split; [exact Hfeedback | exact (Hstop eq_refl)]].
Defined.

(** ** The recording lifecycle *)

Section LifecycleFacts.

Variable syntaxErrorMessage : JsString -> JsString.
Variable env : Env.

Lemma commit_component (w : World) (st : State) (docs : list Doc.t)
      (pending : list (list Command)) (cmds : list Command) :
  component (commit w st docs pending cmds) = st.
Proof.
  unfold commit. destruct (fold_left perform cmds (hook w, pending)).
  reflexivity.
Qed.

Lemma commit_log (w : World) (st : State) (docs : list Doc.t)
      (pending : list (list Command)) (cmds : list Command) :
  log (commit w st docs pending cmds) = log w ++ cmds.
Proof.
  unfold commit. destruct (fold_left perform cmds (hook w, pending)).
  reflexivity.
Qed.

Lemma commit_hook (w : World) (st : State) (docs : list Doc.t)
      (pending : list (list Command)) (cmds : list Command) :
  hook (commit w st docs pending cmds)
  = fst (fold_left perform cmds (hook w, pending)).
Proof.
  unfold commit. destruct (fold_left perform cmds (hook w, pending)).
  reflexivity.
Qed.

Lemma perform_quiet (cmds : list Command) :
  forallb quiet cmds = true ->
  forall acc, fold_left perform cmds acc = acc.
Proof.
  induction cmds as [|c cmds IH]; simpl; [reflexivity|].
  intros H acc. apply andb_prop in H as [Hc Hrest].
  rewrite IH by assumption.
  destruct acc as [h ts]. destruct c; simpl in *; try reflexivity; discriminate.
Qed.

Lemma recordUserAnswer_keeps_answer (isRec : bool)
      (reply : Completion JsString) (st : State) :
  userAnswer (fst (recordUserAnswer syntaxErrorMessage env isRec reply st))
  = userAnswer st.
Proof.
  unfold recordUserAnswer. destruct isRec; [|reflexivity].
  pose proof (generateResult_keeps syntaxErrorMessage
                (Question.question (question env))
                (Question.answer (question env)) (userAnswer st) reply st)
    as [_ Hk].
  destruct (generateResult syntaxErrorMessage _ _ _ reply st) as [[o st1] c].
  simpl in Hk. destruct o; simpl; exact Hk.
Qed.

(** While recording, the record button asks the recognizer to stop,
    then sends the prompt built from the answer text it holds, and issues
    nothing afterwards that would start or stop the recognizer. *)
Lemma recordUserAnswer_stops_then_sends (reply : Completion JsString)
      (st : State) :
  exists rest,
    snd (recordUserAnswer syntaxErrorMessage env true reply st)
    = StopSpeechToText
      :: SendMessage (prompt (Question.question (question env))
                             (Question.answer (question env))
                             (userAnswer st))
      :: rest
    /\ forallb quiet rest = true.
Proof.
  unfold recordUserAnswer, generateResult.
  destruct reply as [raw|e].
  - unfold parseAndValidate, cleanJsonResponse.
    destruct (JSON_parse syntaxErrorMessage raw) as [v|e1].
    + destruct (negb _ || negb _); simpl; eexists; split; reflexivity.
    + destruct (JSON_parse syntaxErrorMessage _) as [v|e2].
      * destruct (negb _ || negb _); simpl; eexists; split; reflexivity.
      * destruct (extractionParse syntaxErrorMessage raw) as [v|e3].
        -- destruct (negb _ || negb _); simpl; eexists; split; reflexivity.
        -- simpl; eexists; split; reflexivity.
  - simpl; eexists; split; reflexivity.
Qed.

Lemma runEvents_snoc (trace : list Event) (e : Event) (w : World) :
  runEvents syntaxErrorMessage env (trace ++ [e]) w
  = step syntaxErrorMessage env (runEvents syntaxErrorMessage env trace w) e.
Proof.
  unfold runEvents. now rewrite fold_left_app.
Qed.

(** The answer text the component holds is empty, or the aggregation of
    some non-empty [results] array delivered to it. *)
Lemma answer_origin (trace : list Event) :
  userAnswer (component (runEvents syntaxErrorMessage env trace initialWorld))
  = []
  \/ exists rs,
      In (SpeechResults rs) trace /\ rs <> []
      /\ userAnswer (component (runEvents syntaxErrorMessage env trace
                                          initialWorld))
         = aggregate_spec rs.
Proof.
  induction trace as [|e trace IH] using rev_ind; [left; reflexivity|].
  rewrite runEvents_snoc.
  set (w := runEvents syntaxErrorMessage env trace initialWorld) in *.
  assert (Hkeep : userAnswer (component (step syntaxErrorMessage env w e))
                  = userAnswer (component w) ->
                  userAnswer (component (step syntaxErrorMessage env w e)) = []
                  \/ exists rs,
                      In (SpeechResults rs) (trace ++ [e]) /\ rs <> []
                      /\ userAnswer (component (step syntaxErrorMessage env w e))
                         = aggregate_spec rs).
  { intros ->. destruct IH as [IH|(rs & Hin & Hne & Hrs)]; [now left|].
    right. exists rs. repeat split; auto. apply in_or_app; now left. }
  destruct e as [reply| |run| |rs].
  - apply Hkeep. cbn [step].
    pose proof (recordUserAnswer_keeps_answer (isRecording (hook w)) reply
                  (component w)) as Hk.
    destruct (recordUserAnswer _ _ _ reply (component w)) as [st cmds].
    now rewrite commit_component.
  - left. cbn [step]. unfold recordNewAnswer. now rewrite commit_component.
  - assert (Hs : userAnswer (stateOf (saveUserAnswer env (isRecording (hook w))
                                        run (component w) (store w))) = []
                 \/ userAnswer (stateOf (saveUserAnswer env
                                           (isRecording (hook w)) run
                                           (component w) (store w)))
                    = userAnswer (component w)).
    { unfold saveUserAnswer.
      destruct (aiResult (component w)); [|now right].
      destruct (queryError run); [now right|].
      destruct (filter (keyOf env) (store w)); [|now right].
      destruct (insertError run); [now right | now left]. }
    assert (Hc : component (step syntaxErrorMessage env w (ConfirmSave run))
                 = stateOf (saveUserAnswer env (isRecording (hook w)) run
                                           (component w) (store w))).
    { cbn [step].
      destruct (saveUserAnswer env _ run (component w) (store w))
        as [[st docs] cmds].
      now rewrite commit_component. }
    destruct Hs as [Hs|Hs]; [left | apply Hkeep]; rewrite Hc; exact Hs.
  - apply Hkeep. cbn [step].
    destruct (timers w); [reflexivity | now rewrite commit_component].
  - destruct rs as [|r rs]; [apply Hkeep; reflexivity|].
    right. exists (r :: rs). repeat split.
    + apply in_or_app; right; now left.
    + discriminate.
    + cbn [step component resultsEffect]. apply combineTranscripts_refines.
Qed.

(** C2, as the code has it.  "Record New Answer" leaves the answer text
    empty and the AIResponse null whatever they were; it asks the
    recognizer to stop if it was recording and parks the restart in a
    300 ms timer, so the recognizer is idle once the handler is done.
    The record button pressed while idle starts the recognizer and
    leaves the component state as it was. *)
Theorem reset_clears_and_toggle_start_keeps :
  (forall isRec st,
      userAnswer (fst (recordNewAnswer isRec st)) = []
      /\ aiResult (fst (recordNewAnswer isRec st)) = None
      /\ snd (recordNewAnswer isRec st)
         = (if isRec then [StopSpeechToText] else [])
           ++ [SetTimeout restartCallback 300])
  /\ (forall w,
         userAnswer (component (step syntaxErrorMessage env w ClickRecordNew))
         = []
         /\ aiResult (component (step syntaxErrorMessage env w ClickRecordNew))
            = None
         /\ isRecording (hook (step syntaxErrorMessage env w ClickRecordNew))
            = false
         /\ timers (step syntaxErrorMessage env w ClickRecordNew)
            = timers w ++ [restartCallback])
  /\ (forall reply st,
         recordUserAnswer syntaxErrorMessage env false reply st
         = (st, recordingStarted)).
Proof.
  split; [|split].
  - intros isRec st. repeat split.
  - intros [st [rec rs] docs ts lg]. cbn [step recordNewAnswer].
    destruct rec; repeat split.
  - reflexivity.
Qed.

(** C3, as the code has it.  Pressed while recording, the record button
    first asks the recognizer to stop and then sends the prompt, after
    which the recognizer is idle; the prompt is the template around the
    answer text the component holds at that moment, and that text is
    empty or the space-joined text of the final segments of a non-empty
    results array delivered earlier. *)
Theorem stop_precedes_prompt_of_held_answer :
  forall trace reply,
    isRecording (hook (runEvents syntaxErrorMessage env trace initialWorld))
    = true ->
    (exists rest,
        log (step syntaxErrorMessage env
                  (runEvents syntaxErrorMessage env trace initialWorld)
                  (ClickRecord reply))
        = log (runEvents syntaxErrorMessage env trace initialWorld)
          ++ StopSpeechToText
          :: SendMessage
               (promptHead (Question.question (question env))
                ++ userAnswer (component (runEvents syntaxErrorMessage env
                                                    trace initialWorld))
                ++ promptTail (Question.answer (question env)))
          :: rest)
    /\ isRecording (hook (step syntaxErrorMessage env
                               (runEvents syntaxErrorMessage env trace
                                          initialWorld)
                               (ClickRecord reply)))
       = false
    /\ (userAnswer (component (runEvents syntaxErrorMessage env trace
                                         initialWorld)) = []
        \/ exists rs,
            In (SpeechResults rs) trace /\ rs <> []
            /\ userAnswer (component (runEvents syntaxErrorMessage env trace
                                                initialWorld))
               = aggregate_spec rs).
Proof.
  intros trace reply Hrec.
  set (w := runEvents syntaxErrorMessage env trace initialWorld) in *.
  destruct (recordUserAnswer_stops_then_sends reply (component w))
    as (rest & Hcmds & Hquiet).
  split; [|split; [|apply answer_origin]].
  - exists rest. cbn [step]. rewrite Hrec.
    destruct (recordUserAnswer _ _ true reply (component w)) as [st cmds].
    simpl in Hcmds. subst cmds. now rewrite commit_log.
  - cbn [step]. rewrite Hrec.
    destruct (recordUserAnswer _ _ true reply (component w)) as [st cmds].
    simpl in Hcmds. subst cmds. rewrite commit_hook.
    cbn [fold_left perform].
    destruct (hook w) as [rec rs].
    rewrite perform_quiet by exact Hquiet. reflexivity.
Qed.

End LifecycleFacts.

(** C2 as stated fails for the record button: pressed while idle in a
    state holding an answer and its evaluation, it starts the recognizer
    and both are still there. *)
Lemma toggle_start_keeps_answer_and_feedback :
  recordUserAnswer sampleSyntaxMessage sampleEnv false goodReply answeredState
  = (answeredState, recordingStarted)
  /\ strEqb (userAnswer answeredState) [] = false
  /\ aiResult answeredState = Some needsWork
  /\ In StartSpeechToText recordingStarted.
Proof.
  repeat split; try reflexivity. left; reflexivity.
Qed.

(** C3 as stated fails: a second session in which nothing is delivered
    sends the text of the first session again, not the empty aggregation
    of its own segments. *)
Lemma silent_session_prompts_previous_answer :
  isRecording (hook (runEvents sampleSyntaxMessage sampleEnv firstSession
                               initialWorld)) = false
  /\ deliveredDuring silentSession = []
  /\ promptsSent
       (log (runEvents sampleSyntaxMessage sampleEnv
                       (firstSession ++ silentSession) initialWorld))
     = [prompt (Question.question (question sampleEnv))
               (Question.answer (question sampleEnv)) (js "hello");
        prompt (Question.question (question sampleEnv))
               (Question.answer (question sampleEnv)) (js "hello")]
  /\ strEqb (prompt (Question.question (question sampleEnv))
                    (Question.answer (question sampleEnv)) (js "hello"))
            (prompt (Question.question (question sampleEnv))
                    (Question.answer (question sampleEnv))
                    (combineTranscripts []))
     = false.
Proof.
  repeat split; vm_compute; reflexivity.
Qed.

(** The theorem of C3 at the stop that ends the first session. *)
Lemma stop_precedes_prompt_of_held_answer_witness :
  isRecording
    (hook (step sampleSyntaxMessage sampleEnv
                (runEvents sampleSyntaxMessage sampleEnv
                           [ClickRecord goodReply; SpeechResults hello]
                           initialWorld)
                (ClickRecord goodReply)))
  = false.
Proof.
  apply (stop_precedes_prompt_of_held_answer sampleSyntaxMessage sampleEnv
           [ClickRecord goodReply; SpeechResults hello] goodReply).
  reflexivity.
Defined.

(** ** The other tiers on their examples *)

(** A bare record is parsed by the direct tier. *)
Example direct_parse_example :
  cleanJsonResponse sampleSyntaxMessage (jsq "{'ratings':7,'feedback':'Good'}")
  = (Normal (JObject [(js "ratings", number 7);
                      (js "feedback", JString (js "Good"))]), []).
Proof. vm_compute. reflexivity. Qed.

(** A fenced record fails the direct tier and is parsed once the fence
    markers are removed and the text trimmed. *)
Example fence_stripped_example :
  JSON.parseText (jsq "```json {'ratings':5,'feedback':'OK'} ```")
  = JSON.SyntaxErr
  /\ cleanJsonResponse sampleSyntaxMessage
       (jsq "```json {'ratings':5,'feedback':'OK'} ```")
     = (Normal (JObject [(js "ratings", number 5);
                         (js "feedback", JString (js "OK"))]), []).
Proof. split; vm_compute; reflexivity. Qed.

(** The span stops at the first closing brace, so a nested record inside
    commentary is cut short and rejected. *)
Example nested_record_is_cut_short :
  matchObject (jsq "x {'a':{'b':1}} y") = Some (jsq "{'a':{'b':1}")
  /\ exists e, fst (cleanJsonResponse sampleSyntaxMessage
                                      (jsq "x {'a':{'b':1}} y")) = Throw e.
Proof. split; [|eexists]; vm_compute; reflexivity. Qed.

(** * Further properties of the component *)

(** ** Text helpers of the tiered parser *)

Section TextFacts.

Lemma strEqb_refl (s : JsString) : strEqb s s = true.
Proof.
  induction s as [|c s IH]; simpl; [reflexivity|].
  now rewrite N.eqb_refl, IH.
Qed.

Lemma strEqb_eq (a b : JsString) : strEqb a b = true <-> a = b.
Proof.
  split; [|intros ->; apply strEqb_refl].
  revert b; induction a as [|x a IH]; intros [|y b]; simpl;
    try discriminate; [reflexivity|].
  intros H. apply andb_prop in H as [Hx Hab].
  apply N.eqb_eq in Hx. apply IH in Hab. congruence.
Qed.

Lemma lacks_app (c : N) (a b : JsString) :
  lacks c (a ++ b) = lacks c a && lacks c b.
Proof. unfold lacks. apply forallb_app. Qed.

Lemma lacks_rev (c : N) (s : JsString) : lacks c (rev s) = lacks c s.
Proof.
  induction s as [|x s IH]; [reflexivity|].
  simpl rev. rewrite lacks_app, IH. simpl.
  rewrite andb_true_r. apply andb_comm.
Qed.

Lemma fence_needs_backtick (p s : JsString) (c : N) :
  (c =? backtick) = false ->
  startsWith (backtick :: p) (c :: s) = false.
Proof.
  intros Hc. cbn [startsWith]. rewrite N.eqb_sym, Hc. reflexivity.
Qed.

Lemma replaceFences_lacks_backtick (s : JsString) :
  forall skip, lacks backtick (replaceFences skip s) = true.
Proof.
  induction s as [|c s IH]; intros skip; [reflexivity|].
  cbn [replaceFences]. destruct skip as [|n]; [|apply IH].
  destruct (startsWith (js "```json") (c :: s)); [apply IH|].
  destruct (startsWith (js "```") (c :: s)); [apply IH|].
  destruct (c =? backtick) eqn:Hc; [apply IH|].
  cbn [lacks forallb]. fold (lacks backtick (replaceFences 0 s)).
  now rewrite Hc, IH.
Qed.

Lemma replaceFences_without_backtick (s : JsString) :
  lacks backtick s = true -> replaceFences 0 s = s.
Proof.
  induction s as [|c s IH]; [reflexivity|].
  intros H. cbn [lacks forallb] in H. apply andb_prop in H as [Hc Hs].
  apply negb_true_iff in Hc.
  cbn [replaceFences].
  change (js "```json") with (backtick :: js "``json").
  change (js "```") with (backtick :: js "``").
  rewrite !fence_needs_backtick by exact Hc.
  rewrite Hc. f_equal. now apply IH.
Qed.

(** X1.  The fence-stripping replacement leaves no backtick in its
    result, returns a text without backticks as it is, and so changes
    nothing when applied a second time. *)
Theorem replaceFences_removes_every_backtick :
  forall text : JsString,
    lacks backtick (replaceFences 0 text) = true
    /\ (lacks backtick text = true -> replaceFences 0 text = text)
    /\ replaceFences 0 (replaceFences 0 text) = replaceFences 0 text.
Proof.
  intros text. split; [apply replaceFences_lacks_backtick|]. split.
  - apply replaceFences_without_backtick.
  - apply replaceFences_without_backtick, replaceFences_lacks_backtick.
Qed.

Lemma headIsSpace_trimStart (s : JsString) : headIsSpace (trimStart s) = false.
Proof.
  induction s as [|c s IH]; [reflexivity|].
  simpl. destruct (isJsSpace c) eqn:Hc; [exact IH|]. simpl. exact Hc.
Qed.

Lemma trimStart_keeps_last (s : JsString) (c : N) :
  isJsSpace c = false -> exists u, trimStart (s ++ [c]) = u ++ [c].
Proof.
  intros Hc. induction s as [|x s IH]; simpl.
  - rewrite Hc. now exists [].
  - destruct (isJsSpace x); [exact IH|]. now exists (x :: s).
Qed.

Lemma trimStart_fixed (s : JsString) :
  headIsSpace s = false -> trimStart s = s.
Proof.
  destruct s as [|c s]; [reflexivity|]. simpl. now intros ->.
Qed.

Lemma lacks_trimStart (c : N) (s : JsString) :
  lacks c s = true -> lacks c (trimStart s) = true.
Proof.
  induction s as [|x s IH]; [reflexivity|].
  intros H. simpl. destruct (isJsSpace x); [|exact H].
  cbn [lacks forallb] in H. apply andb_prop in H as [_ Hs]. now apply IH.
Qed.

Lemma headIsSpace_trimEnd (s : JsString) :
  headIsSpace s = false -> headIsSpace (trimEnd s) = false.
Proof.
  destruct s as [|c s]; [reflexivity|]. simpl. intros Hc.
  unfold trimEnd. simpl rev.
  destruct (trimStart_keeps_last (rev s) c Hc) as [u ->].
  rewrite rev_app_distr. simpl. exact Hc.
Qed.

Lemma trim_edges (s : JsString) :
  headIsSpace (trim s) = false /\ lastIsSpace (trim s) = false.
Proof.
  unfold trim. split.
  - apply headIsSpace_trimEnd, headIsSpace_trimStart.
  - unfold lastIsSpace, trimEnd. rewrite rev_involutive.
    apply headIsSpace_trimStart.
Qed.

Lemma trim_fixed (s : JsString) :
  headIsSpace s = false -> lastIsSpace s = false -> trim s = s.
Proof.
  intros Hh Hl. unfold trim, trimEnd.
  rewrite (trimStart_fixed s Hh), (trimStart_fixed (rev s) Hl).
  apply rev_involutive.
Qed.

(** X2.  The text handed to the second parse attempt holds no backtick
    and neither begins nor ends with white space; a response that
    already is like that reaches the second attempt unchanged. *)
Theorem cleanText_is_stripped_and_trimmed :
  forall responseText : JsString,
    lacks backtick (trim (replaceFences 0 responseText)) = true
    /\ headIsSpace (trim (replaceFences 0 responseText)) = false
    /\ lastIsSpace (trim (replaceFences 0 responseText)) = false
    /\ (lacks backtick responseText = true ->
        headIsSpace responseText = false ->
        lastIsSpace responseText = false ->
        trim (replaceFences 0 responseText) = responseText).
Proof.
  intros responseText. repeat split; try apply trim_edges.
  - unfold trim, trimEnd. rewrite lacks_rev.
    apply lacks_trimStart. rewrite lacks_rev.
    apply lacks_trimStart, replaceFences_lacks_backtick.
  - intros Hb Hh Hl. rewrite replaceFences_without_backtick by exact Hb.
    now apply trim_fixed.
Qed.

Lemma lazyToClose_lacks (s : JsString) :
  lacks closeBrace s = true -> lazyToClose s = None.
Proof.
  induction s as [|c s IH]; [reflexivity|].
  intros H. cbn [lacks forallb] in H. apply andb_prop in H as [Hc Hs].
  apply negb_true_iff in Hc. simpl. rewrite Hc, IH by exact Hs. reflexivity.
Qed.

Lemma matchObject_lacks_open (s : JsString) :
  lacks openBrace s = true -> matchObject s = None.
Proof.
  induction s as [|c s IH]; [reflexivity|].
  intros H. cbn [lacks forallb] in H. apply andb_prop in H as [Hc Hs].
  apply negb_true_iff in Hc. simpl. rewrite Hc. now apply IH.
Qed.

(** X3.  The pattern search finds a text exactly when it is the span
    from the first opening brace to the first closing brace after it,
    and finds nothing exactly when the text has no opening brace or no
    closing brace after the first one. *)
Theorem matchObject_characterised :
  forall s : JsString,
    (forall m,
        matchObject s = Some m <->
        exists pre mid post,
          s = pre ++ openBrace :: mid ++ closeBrace :: post
          /\ m = openBrace :: mid ++ [closeBrace]
          /\ lacks openBrace pre = true
          /\ lacks closeBrace mid = true)
    /\ (matchObject s = None <->
        lacks openBrace s = true
        \/ exists pre post,
            s = pre ++ openBrace :: post
            /\ lacks openBrace pre = true
            /\ lacks closeBrace post = true).
Proof.
  intros s. split.
  - intros m. split.
    + apply matchObject_sound.
    + intros (pre & mid & post & -> & -> & Hpre & Hmid).
      now apply matchObject_first_span.
  - split.
    + induction s as [|c s IH]; [now left|].
      cbn [matchObject]. destruct (c =? openBrace) eqn:Hc.
      * destruct (lazyToClose s) as [m|] eqn:Hl; [discriminate|].
        intros _. right. exists [], s. apply N.eqb_eq in Hc. subst c.
        repeat split. now apply lazyToClose_none.
      * intros H. destruct (IH H) as [Hs|(pre & post & -> & Hpre & Hpost)].
        -- left. cbn [lacks forallb]. rewrite Hc. exact Hs.
        -- right. exists (c :: pre), post. repeat split; [|exact Hpost].
           cbn [lacks forallb]. rewrite Hc. exact Hpre.
    + intros [Hs|(pre & post & -> & Hpre & Hpost)].
      * now apply matchObject_lacks_open.
      * induction pre as [|c pre IH]; cbn [app matchObject].
        -- rewrite N.eqb_refl, lazyToClose_lacks by exact Hpost.
           cbn [option_map]. now apply matchObject_needs_close.
        -- cbn [lacks forallb] in Hpre. apply andb_prop in Hpre as [Hc Hpre].
           apply negb_true_iff in Hc. rewrite Hc. now apply IH.
Qed.

End TextFacts.

(** The theorem of X1 at a text without backticks. *)
Lemma replaceFences_removes_every_backtick_witness :
  replaceFences 0 notJson = notJson.
Proof.
  apply (proj1 (proj2 (replaceFences_removes_every_backtick notJson))).
  reflexivity.
Defined.

(** The theorem of X2 at a bare record. *)
Lemma cleanText_is_stripped_and_trimmed_witness :
  trim (replaceFences 0 wrongTypeReply) = wrongTypeReply.
Proof.
  apply (proj2 (proj2 (proj2 (cleanText_is_stripped_and_trimmed wrongTypeReply))));
    reflexivity.
Defined.

(** The theorem of X3 at the commentary-wrapped example. *)
Lemma matchObject_characterised_witness :
  matchObject extractionExample
  = Some (jsq "{'ratings':3,'feedback':'Needs work'}").
Proof.
  apply (proj1 (matchObject_characterised extractionExample)).
  exists (js "Here is the result: "),
         (jsq "'ratings':3,'feedback':'Needs work'"),
         (js " Thanks!").
  repeat split; reflexivity.
Defined.

(** ** The parser and the evaluation, case by case *)

Section EvaluationCases.

Variable syntaxErrorMessage : JsString -> JsString.

(** How a call of [cleanJsonResponse] can end. *)
Lemma cleanJsonResponse_outcomes (responseText : JsString) :
  (exists v, cleanJsonResponse syntaxErrorMessage responseText = (Normal v, []))
  \/ (exists m, cleanJsonResponse syntaxErrorMessage responseText
                = (Throw (invalidJson m), [parsingFailed responseText])).
Proof.
  destruct (cleanJsonResponse syntaxErrorMessage responseText)
    as [[v|e] cmds] eqn:Hclean.
  - left. exists v. f_equal.
    unfold cleanJsonResponse in Hclean.
    destruct (JSON_parse syntaxErrorMessage responseText);
      [now injection Hclean|].
    destruct (JSON_parse syntaxErrorMessage _); [now injection Hclean|].
    destruct (extractionParse syntaxErrorMessage responseText);
      [now injection Hclean | discriminate Hclean].
  - right. unfold cleanJsonResponse in Hclean.
    destruct (JSON_parse syntaxErrorMessage responseText); [discriminate|].
    destruct (JSON_parse syntaxErrorMessage _); [discriminate|].
    destruct (extractionParse syntaxErrorMessage responseText) as [v|e3];
      [discriminate|].
    injection Hclean as <- <-. now exists (message e3).
Qed.

(** X4.  The tiered parser either returns a value and issues nothing, or
    throws an error whose message starts "Invalid JSON format: " and
    writes the raw response, once, to the error console. *)
Theorem cleanJsonResponse_is_silent_or_logs_raw_text :
  forall responseText : JsString,
    (exists v, cleanJsonResponse syntaxErrorMessage responseText
               = (Normal v, []))
    \/ (exists m, cleanJsonResponse syntaxErrorMessage responseText
                  = (Throw (invalidJson m), [parsingFailed responseText])).
Proof.
  intros responseText. unfold cleanJsonResponse.
  destruct (JSON_parse syntaxErrorMessage responseText) as [v|e1];
    [left; now exists v|].
  destruct (JSON_parse syntaxErrorMessage _) as [v|e2]; [left; now exists v|].
  destruct (extractionParse syntaxErrorMessage responseText) as [v|e3];
    [left; now exists v|].
  right. now exists (message e3).
Qed.

(** The four ways a call of [generateResult] can go. *)
Lemma generateResult_cases (qst qstAns userAns : JsString)
      (reply : Completion JsString) (st : State) :
  (exists raw v,
      reply = Normal raw /\ hasResponseShape v = true
      /\ cleanJsonResponse syntaxErrorMessage raw = (Normal v, [])
      /\ generateResult syntaxErrorMessage qst qstAns userAns reply st
         = (Normal v, setIsAiGenerating false st,
            [SendMessage (prompt qst qstAns userAns); rawLogged raw]))
  \/ (exists raw v,
         reply = Normal raw /\ hasResponseShape v = false
         /\ cleanJsonResponse syntaxErrorMessage raw = (Normal v, [])
         /\ generateResult syntaxErrorMessage qst qstAns userAns reply st
            = (Throw invalidStructure, setIsAiGenerating false st,
               [SendMessage (prompt qst qstAns userAns); rawLogged raw]
               ++ generationFailed invalidStructure))
  \/ (exists raw m,
         reply = Normal raw
         /\ generateResult syntaxErrorMessage qst qstAns userAns reply st
            = (Throw (invalidJson m), setIsAiGenerating false st,
               [SendMessage (prompt qst qstAns userAns); rawLogged raw;
                parsingFailed raw]
               ++ generationFailed (invalidJson m)))
  \/ (exists e,
         reply = Throw e
         /\ generateResult syntaxErrorMessage qst qstAns userAns reply st
            = (Throw e, setIsAiGenerating false st,
               SendMessage (prompt qst qstAns userAns) :: generationFailed e)).
Proof.
  destruct reply as [raw|e].
  2:{ right; right; right. exists e. split; reflexivity. }
  unfold generateResult, parseAndValidate, hasResponseShape.
  destruct (cleanJsonResponse_outcomes raw) as [[v Hv]|[m Hm]].
  - rewrite Hv.
    destruct (JsType_eqb (typeof (getProp v (js "ratings"))) TNumber) eqn:Hr;
      [destruct (JsType_eqb (typeof (getProp v (js "feedback"))) TString)
                eqn:Hf|].
    + left. exists raw, v. rewrite Hr, Hf. repeat split; exact Hv.
    + right; left. exists raw, v. rewrite Hr, Hf. repeat split; exact Hv.
    + right; left. exists raw, v. rewrite Hr. repeat split; exact Hv.
  - rewrite Hm. right; right; left. exists raw, m. repeat split.
Qed.

(** X5.  Whatever the service replies, [generateResult] sends exactly one
    prompt, as its first command, never starts or stops the recognizer,
    and leaves the component state as it found it but for the
    [isAiGenerating] flag, which ends up off. *)
Theorem generateResult_sends_one_prompt_and_restores_flag :
  forall qst qstAns userAns reply st,
    snd (fst (generateResult syntaxErrorMessage qst qstAns userAns reply st))
    = setIsAiGenerating false st
    /\ promptsSent (snd (generateResult syntaxErrorMessage qst qstAns userAns
                                        reply st))
       = [prompt qst qstAns userAns]
    /\ hd_error (snd (generateResult syntaxErrorMessage qst qstAns userAns
                                     reply st))
       = Some (SendMessage (prompt qst qstAns userAns))
    /\ forallb quiet (snd (generateResult syntaxErrorMessage qst qstAns
                                          userAns reply st)) = true.
Proof.
  intros qst qstAns userAns reply st.
  destruct (generateResult_cases qst qstAns userAns reply st)
    as [(raw & v & _ & _ & _ & ->)
       |[(raw & v & _ & _ & _ & ->)
        |[(raw & m & _ & ->)|(e & _ & ->)]]];
    repeat split.
Qed.

(** X6.  [generateResult] never fails silently and never reports a
    success as a failure: when it throws, its last two commands are the
    console entry and the error toast for the very error it throws, and
    nothing before them is an error toast; when it returns, it has shown
    no error toast and the value has a numeric [ratings] and a textual
    [feedback].  An error of the service itself is rethrown as it is,
    with nothing logged or parsed in between. *)
Theorem generateResult_reports_what_it_throws :
  forall qst qstAns userAns reply st,
    match fst (fst (generateResult syntaxErrorMessage qst qstAns userAns
                                   reply st)) with
    | Throw e =>
        exists before,
          snd (generateResult syntaxErrorMessage qst qstAns userAns reply st)
          = before ++ generationFailed e
          /\ existsb isErrorToast before = false
    | Normal v =>
        existsb isErrorToast
                (snd (generateResult syntaxErrorMessage qst qstAns userAns
                                     reply st)) = false
        /\ hasResponseShape v = true
    end
    /\ (forall e,
           reply = Throw e ->
           generateResult syntaxErrorMessage qst qstAns userAns reply st
           = (Throw e, setIsAiGenerating false st,
              SendMessage (prompt qst qstAns userAns) :: generationFailed e)).
Proof.
  intros qst qstAns userAns reply st. split.
  - destruct (generateResult_cases qst qstAns userAns reply st)
      as [(raw & v & _ & Hshape & _ & ->)
         |[(raw & v & _ & _ & _ & ->)
          |[(raw & m & _ & ->)|(e & _ & ->)]]]; cbn [fst snd].
    + split; [reflexivity | exact Hshape].
    + eexists; split; reflexivity.
    + exists [SendMessage (prompt qst qstAns userAns); rawLogged raw;
              parsingFailed raw]. split; reflexivity.
    + exists [SendMessage (prompt qst qstAns userAns)]. split; reflexivity.
  - intros e ->. reflexivity.
Qed.

(** X7.  A reply the parser accepts with a numeric [ratings] and a
    textual [feedback] is returned as the parsed record itself, with any
    further fields it has, after one prompt and one log entry. *)
Theorem generateResult_returns_parsed_record_whole :
  forall raw v cmds qst qstAns userAns st,
    cleanJsonResponse syntaxErrorMessage raw = (Normal v, cmds) ->
    hasResponseShape v = true ->
    generateResult syntaxErrorMessage qst qstAns userAns (Normal raw) st
    = (Normal v, setIsAiGenerating false st,
       [SendMessage (prompt qst qstAns userAns); rawLogged raw]).
Proof.
  intros raw v cmds qst qstAns userAns st Hclean Hshape.
  destruct (generateResult_cases qst qstAns userAns (Normal raw) st)
    as [(raw' & v' & Hr & _ & Hc & ->)
       |[(raw' & v' & Hr & Hbad & Hc & _)
        |[(raw' & m & Hr & Hg)|(e & Hr & _)]]].
  - injection Hr as <-. rewrite Hclean in Hc. now injection Hc as -> _.
  - injection Hr as <-. rewrite Hclean in Hc. injection Hc as -> _.
    congruence.
  - injection Hr as <-. exfalso.
    unfold generateResult, parseAndValidate in Hg. rewrite Hclean in Hg.
    unfold hasResponseShape in Hshape.
    apply andb_prop in Hshape as [Hrt Hfb]. rewrite Hrt, Hfb in Hg.
    discriminate Hg.
  - discriminate Hr.
Qed.

(** X8.  Pressed while recording, the record button stores the value of
    a successful evaluation as the new AIResponse and shows no error
    toast; when the evaluation throws, the AIResponse held before stays
    in place, and both [generateResult] and the handler report the
    error, so two error toasts are shown.  The answer text is kept
    either way. *)
Theorem recordUserAnswer_stop_outcomes :
  forall env reply st,
    match fst (fst (generateResult syntaxErrorMessage
                      (Question.question (question env))
                      (Question.answer (question env))
                      (userAnswer st) reply st)) with
    | Normal v =>
        fst (recordUserAnswer syntaxErrorMessage env true reply st)
        = setAiResult (Some v) (setIsAiGenerating false st)
        /\ existsb isErrorToast
             (snd (recordUserAnswer syntaxErrorMessage env true reply st))
           = false
    | Throw e =>
        fst (recordUserAnswer syntaxErrorMessage env true reply st)
        = setIsAiGenerating false st
        /\ exists before,
            snd (recordUserAnswer syntaxErrorMessage env true reply st)
            = before ++ generationFailed e ++ feedbackFailed e
            /\ existsb isErrorToast before = false
    end.
Proof.
  intros env reply st. unfold recordUserAnswer.
  destruct (generateResult_cases (Question.question (question env))
              (Question.answer (question env)) (userAnswer st) reply st)
    as [(raw & v & _ & _ & _ & ->)
       |[(raw & v & _ & _ & _ & ->)
        |[(raw & m & _ & ->)|(e & _ & ->)]]]; cbn [fst snd].
  - split; reflexivity.
  - split; [reflexivity|].
    exists [StopSpeechToText;
            SendMessage (prompt (Question.question (question env))
                                (Question.answer (question env))
                                (userAnswer st));
            rawLogged raw].
    split; reflexivity.
  - split; [reflexivity|].
    exists [StopSpeechToText;
            SendMessage (prompt (Question.question (question env))
                                (Question.answer (question env))
                                (userAnswer st));
            rawLogged raw; parsingFailed raw].
    split; reflexivity.
  - split; [reflexivity|].
    exists [StopSpeechToText;
            SendMessage (prompt (Question.question (question env))
                                (Question.answer (question env))
                                (userAnswer st))].
    split; reflexivity.
Qed.

End EvaluationCases.

(** The theorem of X7 at a reply with a third field. *)
Lemma generateResult_returns_parsed_record_whole_witness :
  generateResult sampleSyntaxMessage (js "Q") (js "A") (js "U")
                 (Normal extraFieldReply) answeredState
  = (Normal extraFieldRecord, setIsAiGenerating false answeredState,
     [SendMessage (prompt (js "Q") (js "A") (js "U"));
      rawLogged extraFieldReply]).
Proof.
  apply (generateResult_returns_parsed_record_whole sampleSyntaxMessage
           extraFieldReply extraFieldRecord []);
    vm_compute; reflexivity.
Defined.

(** ** The component over sequences of events *)

Section WorldFacts.

Variable syntaxErrorMessage : JsString -> JsString.
Variable env : Env.

Lemma commit_store (w : World) (st : State) (docs : list Doc.t)
      (pending : list (list Command)) (cmds : list Command) :
  store (commit w st docs pending cmds) = docs.
Proof.
  unfold commit. destruct (fold_left perform cmds (hook w, pending)).
  reflexivity.
Qed.

Lemma commit_timers (w : World) (st : State) (docs : list Doc.t)
      (pending : list (list Command)) (cmds : list Command) :
  timers (commit w st docs pending cmds)
  = snd (fold_left perform cmds (hook w, pending)).
Proof.
  unfold commit. destruct (fold_left perform cmds (hook w, pending)).
  reflexivity.
Qed.

Lemma promptsSent_app (a b : list Command) :
  promptsSent (a ++ b) = promptsSent a ++ promptsSent b.
Proof.
  induction a as [|c a IH]; [reflexivity|].
  destruct c; simpl; rewrite IH; reflexivity.
Qed.

(** Commands that park no callback leave the pending timers alone. *)
Lemma perform_keeps_timers (cmds : list Command) :
  (forall callback ms, ~ In (SetTimeout callback ms) cmds) ->
  forall acc, snd (fold_left perform cmds acc) = snd acc.
Proof.
  induction cmds as [|c cmds IH]; intros Hno acc; [reflexivity|].
  cbn [fold_left]. rewrite IH.
  - destruct acc as [h ts]. destruct c; try reflexivity.
    exfalso. apply (Hno callback ms). now left.
  - intros callback ms Hin. apply (Hno callback ms). now right.
Qed.

Lemma quiet_sets_no_timer (cmds : list Command) :
  forallb quiet cmds = true ->
  forall callback ms, ~ In (SetTimeout callback ms) cmds.
Proof.
  intros Hq callback ms Hin.
  rewrite forallb_forall in Hq. specialize (Hq _ Hin). discriminate Hq.
Qed.

(** The commands of the record button park no callback and send a
    prompt only when it stops a recording. *)
Lemma recordUserAnswer_commands (isRec : bool) (reply : Completion JsString)
      (st : State) :
  (forall callback ms,
      ~ In (SetTimeout callback ms)
           (snd (recordUserAnswer syntaxErrorMessage env isRec reply st)))
  /\ promptsSent (snd (recordUserAnswer syntaxErrorMessage env isRec reply st))
     = if isRec
       then [prompt (Question.question (question env))
                    (Question.answer (question env)) (userAnswer st)]
       else [].
Proof.
  unfold recordUserAnswer. destruct isRec.
  - destruct (generateResult_cases syntaxErrorMessage
                (Question.question (question env))
                (Question.answer (question env)) (userAnswer st) reply st)
      as [(raw & v & _ & _ & _ & ->)
         |[(raw & v & _ & _ & _ & ->)
          |[(raw & m & _ & ->)|(e & _ & ->)]]];
      (split; [|reflexivity]);
      intros callback ms H; cbn [In app generationFailed feedbackFailed] in H;
      repeat (destruct H as [H|H]; [discriminate H|]); exact H.
  - split; [|reflexivity].
    intros callback ms [H|[H|[]]]; discriminate H.
Qed.

(** The five ways a call of [saveUserAnswer] can go. *)
Lemma saveUserAnswer_cases (isRec : bool) (run : StoreRun) (st : State)
      (docs : list Doc.t) :
  let query := GetDocs (userId env) (Question.question (question env))
                       (interviewId env) in
  (aiResult st = None
   /\ saveUserAnswer env isRec run st docs = (st, docs, [noFeedbackToast]))
  \/ (exists result e,
         aiResult st = Some result /\ queryError run = Some e
         /\ saveUserAnswer env isRec run st docs
            = (saveFinally (setLoading true st), docs, query :: saveFailed e))
  \/ (exists result,
         aiResult st = Some result /\ queryError run = None
         /\ filter (keyOf env) docs <> []
         /\ saveUserAnswer env isRec run st docs
            = (saveFinally (setLoading true st), docs,
               [query; alreadyAnsweredToast]))
  \/ (exists result e,
         aiResult st = Some result /\ queryError run = None
         /\ filter (keyOf env) docs = [] /\ insertError run = Some e
         /\ saveUserAnswer env isRec run st docs
            = (saveFinally (setLoading true st), docs,
               query :: AddDoc (answerDoc env st result (serverTimestamp run))
                     :: saveFailed e))
  \/ (exists result,
         aiResult st = Some result /\ queryError run = None
         /\ filter (keyOf env) docs = [] /\ insertError run = None
         /\ saveUserAnswer env isRec run st docs
            = (saveFinally (setAiResult None
                              (setUserAnswer [] (setLoading true st))),
               docs ++ [answerDoc env st result (serverTimestamp run)],
               [query; AddDoc (answerDoc env st result (serverTimestamp run));
                savedToast]
               ++ (if isRec then [StopSpeechToText] else []))).
Proof.
  intros query. unfold saveUserAnswer.
  destruct (aiResult st) as [result|]; [|left; split; reflexivity].
  destruct (queryError run) as [e|].
  { right; left. exists result, e. repeat split. }
  destruct (filter (keyOf env) docs) as [|d found] eqn:Hfound.
  - destruct (insertError run) as [e|].
    + right; right; right; left. exists result, e. repeat split.
    + right; right; right; right. exists result. repeat split.
  - right; right; left. exists result. repeat split. discriminate.
Qed.

Lemma saveUserAnswer_commands (isRec : bool) (run : StoreRun) (st : State)
      (docs : list Doc.t) :
  (forall callback ms,
      ~ In (SetTimeout callback ms)
           (commandsOf (saveUserAnswer env isRec run st docs)))
  /\ promptsSent (commandsOf (saveUserAnswer env isRec run st docs)) = [].
Proof.
  destruct (saveUserAnswer_cases isRec run st docs)
    as [[_ ->]
       |[(result & e & _ & _ & ->)
        |[(result & _ & _ & _ & ->)
         |[(result & e & _ & _ & _ & _ & ->)
          |(result & _ & _ & _ & _ & ->)]]]];
    unfold commandsOf; cbn [snd]; (split; [|try reflexivity]).
  1-4: intros callback ms H; cbn [In saveFailed] in H;
       repeat (destruct H as [H|H]; [discriminate H|]); exact H.
  - intros callback ms H. destruct isRec; cbn [In app] in H;
      repeat (destruct H as [H|H]; [discriminate H|]); exact H.
  - destruct isRec; reflexivity.
Qed.

Lemma all_well_formed_match (docs : list Doc.t) :
  forallb (docWellFormed env) docs = true -> filter (keyOf env) docs = docs.
Proof.
  induction docs as [|d docs IH]; [reflexivity|].
  cbn [forallb filter]. intros H. apply andb_prop in H as [Hd Hdocs].
  unfold docWellFormed in Hd.
  apply andb_prop in Hd as [Hd _]. apply andb_prop in Hd as [Hd _].
  rewrite Hd, IH by exact Hdocs. reflexivity.
Qed.

Lemma answerDoc_well_formed (st : State) (result : Json) (t : N) :
  hasResponseShape result = true ->
  docWellFormed env (answerDoc env st result t) = true.
Proof.
  intros Hshape. unfold docWellFormed.
  rewrite (saved_doc_has_key env st result t).
  unfold hasResponseShape in Hshape. exact Hshape.
Qed.

(** Every event keeps a well-formed world well formed. *)
Lemma step_keeps_well_formed (w : World) (e : Event) :
  wellFormedWorld env w ->
  wellFormedWorld env (step syntaxErrorMessage env w e).
Proof.
  intros (Hai & Hdocs & Hone & Htimers).
  destruct e as [reply| |run| |rs]; cbn [step].
  - (* the record button *)
    pose proof (recordUserAnswer_commands (isRecording (hook w)) reply
                  (component w)) as [Hno _].
    assert (Hres : match aiResult
                           (fst (recordUserAnswer syntaxErrorMessage env
                                   (isRecording (hook w)) reply (component w)))
                   with
                   | Some r => hasResponseShape r = true
                   | None => True
                   end).
    { unfold recordUserAnswer. destruct (isRecording (hook w)); [|exact Hai].
      destruct (generateResult_cases syntaxErrorMessage
                  (Question.question (question env))
                  (Question.answer (question env))
                  (userAnswer (component w)) reply (component w))
        as [(raw & v & _ & Hshape & _ & ->)
           |[(raw & v & _ & _ & _ & ->)
            |[(raw & m & _ & ->)|(e & _ & ->)]]];
        cbn [fst snd setAiResult setIsAiGenerating aiResult];
        [exact Hshape | exact Hai | exact Hai | exact Hai]. }
    destruct (recordUserAnswer syntaxErrorMessage env _ reply (component w))
      as [st cmds].
    cbn [fst snd] in *. unfold wellFormedWorld.
    rewrite commit_component, commit_store, commit_timers.
    rewrite (perform_keeps_timers cmds Hno). auto.
  - (* record new answer *)
    unfold recordNewAnswer, wellFormedWorld.
    rewrite commit_component, commit_store, commit_timers.
    cbn [aiResult setAiResult]. repeat split; auto.
    destruct (hook w) as [rec rs]. destruct rec; cbn [app fold_left perform snd];
      (apply Forall_app; split; [exact Htimers | now constructor]).
  - (* save *)
    pose proof (saveUserAnswer_commands (isRecording (hook w)) run
                  (component w) (store w)) as [Hno _].
    pose proof (saveUserAnswer_cases (isRecording (hook w)) run (component w)
                  (store w)) as Hcases. cbn zeta in Hcases.
    destruct (saveUserAnswer env _ run (component w) (store w))
      as [[st docs] cmds].
    unfold commandsOf in Hno. cbn [snd] in Hno. unfold wellFormedWorld.
    rewrite commit_component, commit_store, commit_timers.
    rewrite (perform_keeps_timers cmds Hno). cbn [snd].
    destruct Hcases
      as [[Hnone H]
         |[(result & e & _ & _ & H)
          |[(result & _ & _ & _ & H)
           |[(result & e & _ & _ & _ & _ & H)
            |(result & Hsome & _ & Hfresh & _ & H)]]]];
      injection H as Hst Hdc _; subst st docs.
    + auto.
    + repeat split; auto.
    + repeat split; auto.
    + repeat split; auto.
    + rewrite Hsome in Hai.
      rewrite (all_well_formed_match _ Hdocs) in Hfresh. rewrite Hfresh.
      repeat split; auto.
      cbn [app forallb]. now rewrite answerDoc_well_formed.
  - (* the restart timer *)
    destruct (timers w) as [|callback rest] eqn:Hts;
      [split; [exact Hai|]; split; [exact Hdocs|]; split; [exact Hone|];
       rewrite Hts; constructor|].
    inversion Htimers as [|? ? Hcb Hrest]; subst.
    unfold wellFormedWorld.
    rewrite commit_component, commit_store, commit_timers.
    destruct (hook w) as [rec rs]. cbn [restartCallback fold_left perform snd].
    auto.
  - (* results delivered *)
    unfold wellFormedWorld. cbn [component store timers].
    destruct rs; [auto|]. cbn [resultsEffect setUserAnswer aiResult]. auto.
Qed.

(** Every world reached from the initial one is well formed. *)
Lemma reachable_well_formed (trace : list Event) :
  wellFormedWorld env (runEvents syntaxErrorMessage env trace initialWorld).
Proof.
  induction trace as [|e trace IH] using rev_ind.
  - repeat split; auto.
  - rewrite runEvents_snoc. now apply step_keeps_well_formed.
Qed.

(** X9.  Whatever the service replies, the record button flips the
    recognizer between recording and idle. *)
Theorem record_button_toggles_recognizer :
  forall w reply,
    isRecording (hook (step syntaxErrorMessage env w (ClickRecord reply)))
    = negb (isRecording (hook w)).
Proof.
  intros w reply. cbn [step].
  destruct (isRecording (hook w)) eqn:Hrec.
  - destruct (recordUserAnswer_stops_then_sends syntaxErrorMessage env reply
                (component w)) as (rest & Hcmds & Hquiet).
    destruct (recordUserAnswer syntaxErrorMessage env true reply (component w))
      as [st cmds].
    cbn [snd] in Hcmds. subst cmds. rewrite commit_hook.
    cbn [fold_left perform]. destruct (hook w) as [rec rs].
    now rewrite perform_quiet by exact Hquiet.
  - cbn [recordUserAnswer]. rewrite commit_hook.
    destruct (hook w) as [rec rs]. reflexivity.
Qed.

(** X10.  A prompt goes to the service only when the record button stops
    a recording, and then it is the one built from the answer text held
    at that moment: from any reachable world, no other event, and no
    press that starts a recording, sends anything. *)
Theorem prompts_are_sent_only_by_stopping :
  forall trace e,
    promptsSent
      (log (step syntaxErrorMessage env
                 (runEvents syntaxErrorMessage env trace initialWorld) e))
    = promptsSent (log (runEvents syntaxErrorMessage env trace initialWorld))
      ++ match e with
         | ClickRecord _ =>
             if isRecording
                  (hook (runEvents syntaxErrorMessage env trace initialWorld))
             then [prompt (Question.question (question env))
                          (Question.answer (question env))
                          (userAnswer
                             (component
                                (runEvents syntaxErrorMessage env trace
                                           initialWorld)))]
             else []
         | _ => []
         end.
Proof.
  intros trace e.
  pose proof (reachable_well_formed trace) as (_ & _ & _ & Htimers).
  set (w := runEvents syntaxErrorMessage env trace initialWorld) in *.
  destruct e as [reply| |run| |rs]; cbn [step].
  - pose proof (recordUserAnswer_commands (isRecording (hook w)) reply
                  (component w)) as [_ Hp].
    destruct (recordUserAnswer syntaxErrorMessage env _ reply (component w))
      as [st cmds].
    cbn [snd] in Hp. now rewrite commit_log, promptsSent_app, Hp.
  - unfold recordNewAnswer. rewrite commit_log, promptsSent_app.
    destruct (isRecording (hook w)); reflexivity.
  - pose proof (saveUserAnswer_commands (isRecording (hook w)) run
                  (component w) (store w)) as [_ Hp].
    destruct (saveUserAnswer env _ run (component w) (store w))
      as [[st docs] cmds].
    unfold commandsOf in Hp. cbn [snd] in Hp.
    now rewrite commit_log, promptsSent_app, Hp.
  - destruct (timers w) as [|callback rest]; [now rewrite app_nil_r|].
    inversion Htimers as [|? ? Hcb Hrest]; subst.
    now rewrite commit_log, promptsSent_app.
  - cbn [log]. now rewrite app_nil_r.
Qed.

(** X11.  In every world the component can reach, the AIResponse it
    holds is null or a record with a numeric [ratings] and a textual
    [feedback]. *)
Theorem held_response_is_always_validated :
  forall trace,
    match aiResult
            (component (runEvents syntaxErrorMessage env trace initialWorld))
    with
    | Some r =>
        exists d s,
          getProp r (js "ratings") = Some (JNumber d)
          /\ getProp r (js "feedback") = Some (JString s)
    | None => True
    end.
Proof.
  intros trace.
  pose proof (reachable_well_formed trace) as (Hai & _).
  destruct (aiResult _) as [r|]; [|exact I].
  unfold hasResponseShape in Hai. apply andb_prop in Hai as [Hr Hf].
  apply typeof_number in Hr as [d Hd].
  apply typeof_string in Hf as [s Hs]. eauto.
Qed.


(** X13.  No event removes or changes a stored document.  The store
    grows only by a confirmed save with an AIResponse held, a query and
    an insert that both succeed, and no document stored under the key;
    what is appended is the one document built from the state. *)
Theorem events_only_append_the_saved_document :
  forall w e,
    store (step syntaxErrorMessage env w e) = store w
    \/ exists run result,
        e = ConfirmSave run
        /\ aiResult (component w) = Some result
        /\ queryError run = None /\ insertError run = None
        /\ filter (keyOf env) (store w) = []
        /\ store (step syntaxErrorMessage env w e)
           = store w
             ++ [answerDoc env (component w) result (serverTimestamp run)].
Proof.
  intros w e. destruct e as [reply| |run| |rs]; cbn [step].
  - left. destruct (recordUserAnswer _ _ _ reply (component w)).
    apply commit_store.
  - left. unfold recordNewAnswer. apply commit_store.
  - pose proof (saveUserAnswer_cases (isRecording (hook w)) run (component w)
                  (store w)) as Hcases. cbn zeta in Hcases.
    destruct (saveUserAnswer env _ run (component w) (store w))
      as [[st docs] cmds].
    rewrite commit_store.
    destruct Hcases
      as [[Hnone H]
         |[(result & e & _ & _ & H)
          |[(result & _ & _ & _ & H)
           |[(result & e & _ & _ & _ & _ & H)
            |(result & Hsome & Hq & Hfresh & Hi & H)]]]];
      injection H as _ Hdc _; subst docs; try (now left).
    right. exists run, result. repeat split; assumption.
  - left. destruct (timers w); [reflexivity | apply commit_store].
  - now left.
Qed.

(** X14.  A save with no AIResponse held is turned away with a toast:
    nothing reaches the store and the state, the dialog included, is
    untouched.  Any other save queries first, attempts an insert only
    after a query that succeeded and found nothing, issues no further
    store call, and ends with the dialog closed and [loading] off. *)
Theorem save_protocol :
  forall isRec run st docs,
    (aiResult st = None ->
     saveUserAnswer env isRec run st docs = (st, docs, [noFeedbackToast]))
    /\ (aiResult st <> None ->
        hd_error (commandsOf (saveUserAnswer env isRec run st docs))
        = Some (GetDocs (userId env) (Question.question (question env))
                        (interviewId env))
        /\ loading (stateOf (saveUserAnswer env isRec run st docs)) = false
        /\ open (stateOf (saveUserAnswer env isRec run st docs)) = false
        /\ isAiGenerating (stateOf (saveUserAnswer env isRec run st docs))
           = isAiGenerating st)
    /\ (forall d,
           In (AddDoc d) (commandsOf (saveUserAnswer env isRec run st docs)) ->
           queryError run = None
           /\ filter (keyOf env) docs = []
           /\ exists result,
               aiResult st = Some result
               /\ d = answerDoc env st result (serverTimestamp run))
    /\ (List.length
          (filter isStoreCall
                  (commandsOf (saveUserAnswer env isRec run st docs)))
        <= 2)%nat.
Proof.
  intros isRec run st docs.
  destruct (saveUserAnswer_cases isRec run st docs)
    as [[Hnone ->]
       |[(result & e & Hsome & Hq & ->)
        |[(result & Hsome & Hq & Hfound & ->)
         |[(result & e & Hsome & Hq & Hfresh & Hi & ->)
          |(result & Hsome & Hq & Hfresh & Hi & ->)]]]];
    unfold commandsOf, stateOf; cbn [fst snd].
  - split; [reflexivity|]. split; [intros H; congruence|]. split.
    + intros d [H|[]]; discriminate H.
    + cbn. lia.
  - split; [intros H; congruence|]. split; [intros _; repeat split|]. split.
    + intros d H. cbn [In saveFailed] in H.
      repeat (destruct H as [H|H]; [discriminate H|]). destruct H.
    + cbn. lia.
  - split; [intros H; congruence|]. split; [intros _; repeat split|]. split.
    + intros d [H|[H|[]]]; discriminate H.
    + cbn. lia.
  - split; [intros H; congruence|]. split; [intros _; repeat split|]. split.
    + intros d H. cbn [In saveFailed] in H.
      destruct H as [H|[H|H]]; [discriminate H| |].
      * injection H as <-. repeat split; auto. now exists result.
      * repeat (destruct H as [H|H]; [discriminate H|]). destruct H.
    + cbn. lia.
  - split; [intros H; congruence|]. split; [intros _; repeat split|]. split.
    + intros d H. cbn [In app] in H.
      destruct H as [H|[H|H]]; [discriminate H| |].
      * injection H as <-. repeat split; auto. now exists result.
      * destruct H as [H|H]; [discriminate H|].
        destruct isRec; cbn [In] in H;
          repeat (destruct H as [H|H]; [discriminate H|]); destruct H.
    + destruct isRec; cbn; lia.
Qed.

(** X15.  The document a save writes is found by a query exactly when
    the query's user, question and interview are those of the save; so a
    save under one key never changes what a query under another key
    finds. *)
Theorem saves_under_other_keys_do_not_interfere :
  forall other isRec run st docs,
    (forall result t,
        keyOf other (answerDoc env st result t) = sameKey env other)
    /\ (sameKey env other = true <->
        userId env = userId other
        /\ Question.question (question env)
           = Question.question (question other)
        /\ interviewId env = interviewId other)
    /\ (sameKey env other = false ->
        filter (keyOf other) (docsOf (saveUserAnswer env isRec run st docs))
        = filter (keyOf other) docs).
Proof.
  intros other isRec run st docs.
  assert (Hkey : forall result t,
             keyOf other (answerDoc env st result t) = sameKey env other)
    by reflexivity.
  split; [exact Hkey|]. split.
  { unfold sameKey. rewrite !andb_true_iff, !strEqb_eq. tauto. }
  intros Hother.
  destruct (saveUserAnswer_cases isRec run st docs)
    as [[_ ->]
       |[(result & e & _ & _ & ->)
        |[(result & _ & _ & _ & ->)
         |[(result & e & _ & _ & _ & _ & ->)
          |(result & _ & _ & _ & _ & ->)]]]];
    unfold docsOf; cbn [fst snd]; try reflexivity.
  rewrite filter_app. cbn [filter]. rewrite Hkey, Hother.
  apply app_nil_r.
Qed.

(** X16.  From a world with no timer pending, "Record New Answer"
    followed by its timer leaves the recognizer recording, the answer
    text empty and the AIResponse null, with no timer left; the stop, if
    one was due, comes before the timer is set and the restart comes
    last.  The store is not touched. *)
Theorem reset_then_timer_restarts_on_cleared_state :
  forall w,
    timers w = [] ->
    isRecording (hook (step syntaxErrorMessage env
                            (step syntaxErrorMessage env w ClickRecordNew)
                            TimerFires)) = true
    /\ component (step syntaxErrorMessage env
                       (step syntaxErrorMessage env w ClickRecordNew)
                       TimerFires)
       = setAiResult None (setUserAnswer [] (component w))
    /\ timers (step syntaxErrorMessage env
                    (step syntaxErrorMessage env w ClickRecordNew)
                    TimerFires) = []
    /\ store (step syntaxErrorMessage env
                   (step syntaxErrorMessage env w ClickRecordNew)
                   TimerFires) = store w
    /\ log (step syntaxErrorMessage env
                 (step syntaxErrorMessage env w ClickRecordNew)
                 TimerFires)
       = log w
         ++ (if isRecording (hook w) then [StopSpeechToText] else [])
         ++ SetTimeout restartCallback 300 :: restartCallback.
Proof.
  intros [st [rec rs] docs ts lg] Hts. cbn [timers] in Hts. subst ts.
  destruct rec; cbn; repeat split; now rewrite <- app_assoc.
Qed.

End WorldFacts.

(** The theorem of X15 at the same question in another interview. *)
Lemma saves_under_other_keys_do_not_interfere_witness :
  filter (keyOf {| question := question sampleEnv; userId := userId sampleEnv;
                   interviewId := js "interview_2" |})
         (docsOf (saveUserAnswer sampleEnv false (cleanRun 1) answeredState []))
  = [].
Proof.
  apply (proj2 (proj2 (saves_under_other_keys_do_not_interfere sampleEnv
                         {| question := question sampleEnv;
                            userId := userId sampleEnv;
                            interviewId := js "interview_2" |}
                         false (cleanRun 1) answeredState []))).
  reflexivity.
Defined.

(** The theorem of X16 at the initial world. *)
Lemma reset_then_timer_restarts_on_cleared_state_witness :
  isRecording
    (hook (step sampleSyntaxMessage sampleEnv
                (step sampleSyntaxMessage sampleEnv initialWorld ClickRecordNew)
                TimerFires)) = true.
Proof.
  apply (reset_then_timer_restarts_on_cleared_state sampleSyntaxMessage
           sampleEnv initialWorld).
  reflexivity.
Defined.

(** ** Aggregation of growing results, and the prompt *)

Section AnswerFacts.

Lemma spaceSeparated_app (a b : list JsString) :
  spaceSeparated (a ++ b)
  = match a, b with
    | [], _ => spaceSeparated b
    | _, [] => spaceSeparated a
    | _ :: _, _ :: _ => spaceSeparated a ++ js " " ++ spaceSeparated b
    end.
Proof.
  destruct a as [|x a]; [reflexivity|].
  destruct b as [|y b]; [now rewrite app_nil_r|].
  cbn [app]. rewrite !spaceSeparated_cons.
  rewrite map_app, concat_app. cbn [map List.concat].
  now rewrite <- !app_assoc.
Qed.

(** X17.  The aggregation of a results array followed by another is the
    two aggregations with one space between them, or just the one of
    them that has a final segment; an array of legacy strings only
    blanks the answer text, and an empty array leaves it alone. *)
Theorem aggregation_of_appended_results :
  forall earlier later : list SpeechResult,
    combineTranscripts (earlier ++ later)
    = match finalTexts earlier, finalTexts later with
      | [], _ => combineTranscripts later
      | _ :: _, [] => combineTranscripts earlier
      | _ :: _, _ :: _ =>
          combineTranscripts earlier ++ js " " ++ combineTranscripts later
      end
    /\ (forall text texts st,
           resultsEffect (map LegacyResult (text :: texts)) st
           = setUserAnswer [] st)
    /\ (forall st, resultsEffect [] st = st).
Proof.
  intros earlier later. split; [|split; [|reflexivity]].
  - rewrite !combineTranscripts_refines. unfold aggregate_spec.
    rewrite finalTexts_app, spaceSeparated_app.
    destruct (finalTexts earlier), (finalTexts later); reflexivity.
  - intros text texts st. cbn [map resultsEffect]. f_equal.
    change (combineTranscripts (map LegacyResult (text :: texts)) = []).
    rewrite combineTranscripts_refines. unfold aggregate_spec.
    replace (finalTexts (map LegacyResult (text :: texts))) with (@nil JsString);
      [reflexivity|].
    generalize (text :: texts). intros l.
    induction l as [|t l IH]; [reflexivity | exact IH].
Qed.

Lemma includes_here (x hay : JsString) :
  startsWith x hay = true -> includes x hay = true.
Proof.
  intros H. destruct hay; cbn [includes]; now rewrite H.
Qed.

Lemma startsWith_app (x b : JsString) : startsWith x (x ++ b) = true.
Proof.
  induction x as [|c x IH]; [reflexivity|].
  cbn [app startsWith]. now rewrite N.eqb_refl, IH.
Qed.

Lemma includes_middle (a x b : JsString) : includes x (a ++ x ++ b) = true.
Proof.
  induction a as [|c a IH].
  - cbn [app]. apply includes_here, startsWith_app.
  - cbn [app includes]. rewrite IH. apply orb_true_r.
Qed.

(** X18.  The prompt carries the question, the user's answer and the
    reference answer as they are, with nothing escaped, and prompts for
    the same question and reference answer differ whenever the user's
    answers differ. *)
Theorem prompt_embeds_texts_verbatim :
  forall qst qstAns userAns,
    includes qst (prompt qst qstAns userAns) = true
    /\ includes userAns (prompt qst qstAns userAns) = true
    /\ includes qstAns (prompt qst qstAns userAns) = true
    /\ (forall other,
           prompt qst qstAns userAns = prompt qst qstAns other ->
           userAns = other).
Proof.
  intros qst qstAns userAns. repeat split.
  - replace (prompt qst qstAns userAns)
      with ((nl ++ js "      Question: " ++ [quoteUnit]) ++ qst
            ++ ([quoteUnit] ++ nl ++ js "      User Answer: " ++ [quoteUnit]
                ++ userAns ++ promptTail qstAns))
      by (unfold prompt, promptHead; now rewrite <- !app_assoc).
    apply includes_middle.
  - apply includes_middle.
  - unfold prompt, promptTail.
    replace (promptHead qst ++ userAns ++ [quoteUnit] ++ nl
             ++ js "      Correct Answer: " ++ [quoteUnit] ++ qstAns
             ++ [quoteUnit] ++ nl
             ++ js "      Please compare the user's answer to the correct answer, and provide a rating (from 1 to 10) based on answer quality, and offer feedback for improvement."
             ++ nl
             ++ jsq "      Return the result in JSON format with ONLY the fields 'ratings' (number) and 'feedback' (string)."
             ++ nl
             ++ js "      The response should be valid JSON without code block formatting."
             ++ nl ++ js "    ")
      with ((promptHead qst ++ userAns ++ [quoteUnit] ++ nl
             ++ js "      Correct Answer: " ++ [quoteUnit]) ++ qstAns
            ++ ([quoteUnit] ++ nl
             ++ js "      Please compare the user's answer to the correct answer, and provide a rating (from 1 to 10) based on answer quality, and offer feedback for improvement."
             ++ nl
             ++ jsq "      Return the result in JSON format with ONLY the fields 'ratings' (number) and 'feedback' (string)."
             ++ nl
             ++ js "      The response should be valid JSON without code block formatting."
             ++ nl ++ js "    "))
      by (now rewrite <- !app_assoc).
    apply includes_middle.
  - intros other H. unfold prompt in H.
    apply app_inv_head in H. now apply app_inv_tail in H.
Qed.

End AnswerFacts.

(** ** Fenced replies, and saving twice *)

Section RecoveryFacts.

Variable syntaxErrorMessage : JsString -> JsString.

Lemma space_is_no_backtick (ws : JsString) :
  forallb isJsSpace ws = true -> lacks backtick ws = true.
Proof.
  induction ws as [|c ws IH]; [reflexivity|].
  cbn [forallb lacks]. intros H. apply andb_prop in H as [Hc Hws].
  fold (lacks backtick ws). rewrite IH by exact Hws.
  destruct (c =? backtick) eqn:Hb; [|reflexivity].
  apply N.eqb_eq in Hb. subst c. discriminate Hc.
Qed.

Lemma replaceFences_after_clean_prefix (a r : JsString) :
  lacks backtick a = true ->
  replaceFences 0 (a ++ r) = a ++ replaceFences 0 r.
Proof.
  induction a as [|c a IH]; [reflexivity|].
  intros H. cbn [lacks forallb] in H. apply andb_prop in H as [Hc Ha].
  apply negb_true_iff in Hc.
  cbn [app replaceFences].
  change (js "```json") with (backtick :: js "``json").
  change (js "```") with (backtick :: js "``").
  rewrite !fence_needs_backtick by exact Hc.
  rewrite Hc. f_equal. now apply IH.
Qed.

Lemma trimStart_skips_space (ws s : JsString) :
  forallb isJsSpace ws = true -> trimStart (ws ++ s) = trimStart s.
Proof.
  induction ws as [|c ws IH]; [reflexivity|].
  cbn [forallb app trimStart]. intros H. apply andb_prop in H as [Hc Hws].
  rewrite Hc. now apply IH.
Qed.

Lemma forallb_rev_space (ws : JsString) :
  forallb isJsSpace (rev ws) = forallb isJsSpace ws.
Proof.
  induction ws as [|c ws IH]; [reflexivity|].
  cbn [rev forallb]. rewrite forallb_app, IH. cbn [forallb].
  rewrite andb_true_r. apply andb_comm.
Qed.

Lemma trim_surrounding_space (before text after : JsString) :
  forallb isJsSpace before = true ->
  forallb isJsSpace after = true ->
  headIsSpace text = false ->
  lastIsSpace text = false ->
  trim (before ++ text ++ after) = text.
Proof.
  intros Hb Ha Hh Hl. unfold trim.
  rewrite trimStart_skips_space by exact Hb.
  destruct text as [|c text].
  - cbn [app]. unfold trimEnd.
    replace (trimStart after) with (@nil N); [reflexivity|].
    rewrite <- (app_nil_r after).
    rewrite trimStart_skips_space by exact Ha. reflexivity.
  - cbn [headIsSpace] in Hh. cbn [app trimStart]. rewrite Hh.
    unfold trimEnd.
    change (c :: text ++ after) with ((c :: text) ++ after).
    rewrite rev_app_distr.
    rewrite trimStart_skips_space by (now rewrite forallb_rev_space).
    rewrite (trimStart_fixed _ Hl). apply rev_involutive.
Qed.

(** A text that opens with a backtick is no JSON text. *)
Lemma backtick_first_is_rejected (rest : JsString) :
  exists e, JSON_parse syntaxErrorMessage (backtick :: rest) = Throw e.
Proof.
  unfold JSON_parse, JSON.parse, JSON.parseText, JSON.fuelFor.
  cbn [JSON.skipWs]. change (JSON.isWs backtick) with false. cbv iota.
  rewrite Nat.add_1_r. cbn [JSON.parseValue].
  change (backtick =? 123) with false. change (backtick =? 91) with false.
  change (backtick =? 34) with false. cbv iota.
  change (startsWith (js "true") (backtick :: rest)) with false.
  change (startsWith (js "false") (backtick :: rest)) with false.
  change (startsWith (js "null") (backtick :: rest)) with false.
  change ((backtick =? 45) || JSON.isDigit backtick) with false.
  cbv iota. eexists. reflexivity.
Qed.

(** X19.  A JSON text without backticks and without white space at its
    ends, put in a fence labelled json with any white space around it, is
    rejected by the direct parse and recovered by the fence-stripped one:
    the parser returns the value of the text itself and logs nothing. *)
Theorem fenced_json_is_recovered :
  forall before text after v,
    JSON_parse syntaxErrorMessage text = Normal v ->
    lacks backtick text = true ->
    headIsSpace text = false ->
    lastIsSpace text = false ->
    forallb isJsSpace before = true ->
    forallb isJsSpace after = true ->
    (exists e, JSON_parse syntaxErrorMessage (fenced before text after)
               = Throw e)
    /\ trim (replaceFences 0 (fenced before text after)) = text
    /\ cleanJsonResponse syntaxErrorMessage (fenced before text after)
       = (Normal v, []).
Proof.
  intros before text after v Hv Hclean Hh Hl Hb Ha.
  assert (Hfirst : exists e, JSON_parse syntaxErrorMessage
                                        (fenced before text after) = Throw e)
    by apply backtick_first_is_rejected.
  assert (Hstrip : trim (replaceFences 0 (fenced before text after)) = text).
  { unfold fenced.
    change (replaceFences 0 (js "```json" ++ before ++ text ++ after ++ js "```"))
      with (replaceFences 0 (before ++ text ++ after ++ js "```")).
    rewrite replaceFences_after_clean_prefix by (now apply space_is_no_backtick).
    rewrite replaceFences_after_clean_prefix by exact Hclean.
    rewrite replaceFences_after_clean_prefix by (now apply space_is_no_backtick).
    change (replaceFences 0 (js "```")) with (@nil N).
    rewrite app_nil_r. now apply trim_surrounding_space. }
  split; [exact Hfirst|]. split; [exact Hstrip|].
  destruct Hfirst as [e He].
  unfold cleanJsonResponse. now rewrite He, Hstrip, Hv.
Qed.

End RecoveryFacts.

(** The theorem of X19 at a record fenced with line breaks. *)
Lemma fenced_json_is_recovered_witness :
  cleanJsonResponse sampleSyntaxMessage
                    (fenced nl (jsq "{'ratings':5,'feedback':'OK'}") nl)
  = (Normal (JObject [(js "ratings", number 5);
                      (js "feedback", JString (js "OK"))]), []).
Proof.
  apply (fenced_json_is_recovered sampleSyntaxMessage nl
           (jsq "{'ratings':5,'feedback':'OK'}") nl);
    vm_compute; reflexivity.
Defined.

Section SaveTwice.

Variable env : Env.

(** X20.  Once a save has reported "Saved", the state it leaves holds no
    AIResponse, so confirming again right away is turned away with the
    "No feedback available to save" toast and reaches the store no more;
    the document just written stays the only one added. *)
Theorem confirming_again_after_saved_is_turned_away :
  forall isRec run st docs isRec' run',
    In savedToast (commandsOf (saveUserAnswer env isRec run st docs)) ->
    saveUserAnswer env isRec' run'
                   (stateOf (saveUserAnswer env isRec run st docs))
                   (docsOf (saveUserAnswer env isRec run st docs))
    = (stateOf (saveUserAnswer env isRec run st docs),
       docsOf (saveUserAnswer env isRec run st docs),
       [noFeedbackToast])
    /\ exists result,
        aiResult st = Some result
        /\ docsOf (saveUserAnswer env isRec run st docs)
           = docs ++ [answerDoc env st result (serverTimestamp run)].
Proof.
  intros isRec run st docs isRec' run' Hsaved.
  destruct (saveUserAnswer_cases env isRec run st docs)
    as [[_ H]
       |[(result & e & _ & _ & H)
        |[(result & _ & _ & _ & H)
         |[(result & e & _ & _ & _ & _ & H)
          |(result & Hsome & _ & _ & _ & H)]]]];
    rewrite H in *; unfold commandsOf, stateOf, docsOf in *;
    cbn [fst snd] in *.
  1-4: exfalso; cbn [In saveFailed] in Hsaved;
       repeat (destruct Hsaved as [Hsaved|Hsaved]; [discriminate Hsaved|]);
       exact Hsaved.
  split; [reflexivity|]. now exists result.
Qed.

End SaveTwice.

(** The theorem of X20 at a save that goes through. *)
Lemma confirming_again_after_saved_is_turned_away_witness :
  commandsOf
    (saveUserAnswer sampleEnv false (cleanRun 2)
       (stateOf (saveUserAnswer sampleEnv false (cleanRun 1) answeredState []))
       (docsOf (saveUserAnswer sampleEnv false (cleanRun 1) answeredState [])))
  = [noFeedbackToast].
Proof.
  rewrite (proj1 (confirming_again_after_saved_is_turned_away sampleEnv
                    false (cleanRun 1) answeredState [] false (cleanRun 2)
                    ltac:(vm_compute; auto))).
  reflexivity.
Defined.

(** The theorem of X6 at a request the service refuses. *)
Lemma generateResult_reports_what_it_throws_witness :
  generateResult sampleSyntaxMessage (js "Q") (js "A") (js "U")
                 (Throw (newError (js "overloaded"))) initialState
  = (Throw (newError (js "overloaded")), setIsAiGenerating false initialState,
     SendMessage (prompt (js "Q") (js "A") (js "U"))
     :: generationFailed (newError (js "overloaded"))).
Proof.
  apply (proj2 (generateResult_reports_what_it_throws sampleSyntaxMessage
                  (js "Q") (js "A") (js "U")
                  (Throw (newError (js "overloaded"))) initialState)).
  reflexivity.
Defined.


(** The theorem of X14 at a save with nothing to save, and at an insert
    that is attempted. *)
Lemma save_protocol_witness :
  saveUserAnswer sampleEnv false (cleanRun 1) initialState []
  = (initialState, [], [noFeedbackToast])
  /\ queryError failingInsert = None.
Proof.
  split.
  - apply (proj1 (save_protocol sampleEnv false (cleanRun 1) initialState [])).
    reflexivity.
  - apply (proj1 (proj2 (proj2 (save_protocol sampleEnv false failingInsert
                                              answeredState [])))
                 (answerDoc sampleEnv answeredState needsWork 0)).
    right. left. reflexivity.
Defined.
